(** * server.js: book CRUD and registration/login handlers

    A shallow embedding of the Express handlers of [server.js] that guard,
    update and delete books and that register and log in users: the
    JavaScript values they inspect, the handlers as programs that await store
    and bcrypt operations, and the relational store those operations run
    against.  The handlers that create and list books come after them, on the
    store extended with the counter of book ids. *)

From Stdlib Require Import ZArith QArith Ascii String List Bool Lia.
From stdpp Require Import base option list strings gmap.

Local Open Scope string_scope.
Local Open Scope Z_scope.

(** ** JavaScript values *)

Module Js.

(** A JavaScript number.  [Finite q] is read through [binary64]: it stands
    for the binary64 value nearest to [q], as the parsers of numbers yield
    it, and every number the handlers compute with has gone through that
    rounding.  [-0] and [+0] are the same value [Finite 0]. *)
Inductive JsNumber : Type :=
| NaN
| PosInfinity
| NegInfinity
| Finite (q : Q).

(** The values a parsed JSON body, a query string or a result row can hold.
    [JCompound s] is an array or a plain object whose conversion to a
    primitive succeeds; [s] is the string it yields ([toString]), which is all
    the handlers can observe of it.  [JOpaque] is an array or object whose
    conversion to a primitive throws a TypeError: a plain object with an own
    [toString] property (a parsed JSON value is never callable), or an array
    that holds one. *)
Inductive JsValue : Type :=
| JUndefined
| JNull
| JBool (b : bool)
| JNumber (n : JsNumber)
| JString (s : string)
| JCompound (s : string)
| JOpaque.

#[global] Instance JsValue_inhabited : Inhabited JsValue := populate JUndefined.

Definition of_Z (z : Z) : JsNumber := Finite (inject_Z z).
Definition JInt (z : Z) : JsValue := JNumber (of_Z z).

(** *** Rounding to binary64 *)

(** [n / d] rounded to the nearest integer, ties to even; [d] is positive. *)
Definition round_half_even (n d : Z) : Z :=
  let q := n / d in
  match 2 * (n mod d) ?= d with
  | Lt => q
  | Gt => q + 1
  | Eq => if Z.even q then q else q + 1
  end.

(** The binary64 value nearest to [n / d], for positive [n] and [d]: [f] is
    the binary exponent of [n / d], [e] the exponent of the last of the 53
    bits kept (not below that of the subnormals), and a value that rounds up
    to [2 ^ 1024] overflows. *)
Definition binary64_of_ratio (n d : Z) : JsNumber :=
  let k := Z.log2 n - Z.log2 d in
  let reached := if 0 <=? k then d * 2 ^ k <=? n else d <=? n * 2 ^ (- k) in
  let f := if reached then k else k - 1 in
  let e := Z.max (f - 52) (-1074) in
  if 0 <=? e then
    let m := round_half_even n (d * 2 ^ e) in
    if 2 ^ 1024 <=? m * 2 ^ e then PosInfinity else Finite (inject_Z (m * 2 ^ e))
  else
    Finite (Qred (Qmake (round_half_even (n * 2 ^ (- e)) d) (Z.to_pos (2 ^ (- e))))).

Definition negate (x : JsNumber) : JsNumber :=
  match x with
  | NaN => NaN
  | PosInfinity => NegInfinity
  | NegInfinity => PosInfinity
  | Finite q => Finite (Qopp q)
  end.

(** The binary64 value of a number, in lowest terms. *)
Definition binary64 (x : JsNumber) : JsNumber :=
  match x with
  | Finite q =>
      let r := Qred q in
      match Qnum r with
      | 0 => Finite 0
      | Zpos _ => binary64_of_ratio (Qnum r) (Zpos (Qden r))
      | Zneg p => negate (binary64_of_ratio (Zpos p) (Zpos (Qden r)))
      end
  | _ => x
  end.

(** [a === b] on two binary64 values. *)
Definition number_eq (a b : JsNumber) : bool :=
  match a, b with
  | Finite p, Finite q => Qeq_bool p q
  | PosInfinity, PosInfinity => true
  | NegInfinity, NegInfinity => true
  | _, _ => false
  end.

(** [a !== b] on two binary64 values. *)
Definition number_neq (a b : JsNumber) : bool := negb (number_eq a b).

(** *** StringToNumber *)

Definition code (c : ascii) : Z := Z.of_nat (nat_of_ascii c).

(** White space and line terminators, as UTF-8 byte sequences: TAB, LF, VT,
    FF, CR, SP, NBSP, U+1680, U+2000..U+200A, U+2028, U+2029, U+202F, U+205F,
    U+3000 and U+FEFF. *)
Definition white_space : list (list Z) :=
  [ [9]; [10]; [11]; [12]; [13]; [32]; [194; 160]; [225; 154; 128];
    [226; 128; 128]; [226; 128; 129]; [226; 128; 130]; [226; 128; 131];
    [226; 128; 132]; [226; 128; 133]; [226; 128; 134]; [226; 128; 135];
    [226; 128; 136]; [226; 128; 137]; [226; 128; 138]; [226; 128; 168];
    [226; 128; 169]; [226; 128; 175]; [226; 129; 159]; [227; 128; 128];
    [239; 187; 191] ].

Fixpoint strip_prefix (p cs : list Z) : option (list Z) :=
  match p, cs with
  | [], _ => Some cs
  | x :: p', c :: cs' => if x =? c then strip_prefix p' cs' else None
  | _ :: _, [] => None
  end.

Fixpoint strip_any (ps : list (list Z)) (cs : list Z) : option (list Z) :=
  match ps with
  | [] => None
  | p :: ps' =>
      match strip_prefix p cs with
      | Some r => Some r
      | None => strip_any ps' cs
      end
  end.

(** Drops leading white space; [fuel] bounds the number of bytes. *)
Fixpoint trim_start (ws : list (list Z)) (fuel : nat) (cs : list Z) : list Z :=
  match fuel with
  | O => cs
  | S fuel' =>
      match strip_any ws cs with
      | Some r => trim_start ws fuel' r
      | None => cs
      end
  end.

Definition trim (cs : list Z) : list Z :=
  let front := trim_start white_space (length cs) cs in
  let back := trim_start (map (@rev Z) white_space) (length front) (rev front) in
  rev back.

Definition digit (base : Z) (c : Z) : option Z :=
  let d :=
    if (48 <=? c) && (c <=? 57) then c - 48
    else if (97 <=? c) && (c <=? 102) then c - 87
    else if (65 <=? c) && (c <=? 70) then c - 55
    else base in
  if d <? base then Some d else None.

(** Reads the longest run of digits: its value, its length, and what follows. *)
Fixpoint digits (base : Z) (cs : list Z) (acc : Z) (n : Z) : Z * Z * list Z :=
  match cs with
  | [] => (acc, n, [])
  | c :: cs' =>
      match digit base c with
      | Some d => digits base cs' (acc * base + d) (n + 1)
      | None => (acc, n, cs)
      end
  end.

(** [m * 10^e] as an exact rational. *)
Definition scale10 (m e : Z) : Q :=
  if 0 <=? e then inject_Z (m * 10 ^ e) else Qmake m (Z.to_pos (10 ^ (- e))).

Definition sign_of (cs : list Z) : bool * list Z :=
  match cs with
  | 43 :: r => (false, r)
  | 45 :: r => (true, r)
  | _ => (false, cs)
  end.

Definition signed (neg : bool) (m : Z) : Z := if neg then - m else m.

(** ExponentPart, or nothing; the input must end there. *)
Definition exponent_part (cs : list Z) : option Z :=
  match cs with
  | [] => Some 0
  | c :: r =>
      if (c =? 101) || (c =? 69) then
        let '(neg, r') := sign_of r in
        match digits 10 r' 0 0 with
        | (x, n, []) => if 0 <? n then Some (signed neg x) else None
        | _ => None
        end
      else None
  end.

(** StrUnsignedDecimalLiteral other than [Infinity]: its exact value. *)
Definition unsigned_decimal (cs : list Z) : option Q :=
  let '(i, ni, r1) := digits 10 cs 0 0 in
  let '(f, nf, r2) :=
    match r1 with
    | 46 :: r => digits 10 r 0 0
    | _ => (0, 0, r1)
    end in
  if (0 <? ni + nf) then
    match exponent_part r2 with
    | Some x => Some (scale10 (i * 10 ^ nf + f) (x - nf))
    | None => None
    end
  else None.

Definition bytes_of (s : string) : list Z := map code (list_ascii_of_string s).

(** [0x], [0o] or [0b], in either case: the radix and what follows. *)
Definition radix_prefix (cs : list Z) : option (Z * list Z) :=
  match cs with
  | c0 :: c1 :: r =>
      if c0 =? 48 then
        if (c1 =? 120) || (c1 =? 88) then Some (16, r)
        else if (c1 =? 111) || (c1 =? 79) then Some (8, r)
        else if (c1 =? 98) || (c1 =? 66) then Some (2, r)
        else None
      else None
  | _ => None
  end.

Definition non_decimal (base : Z) (cs : list Z) : JsNumber :=
  match digits base cs 0 0 with
  | (v, n, []) => if 0 <? n then binary64 (of_Z v) else NaN
  | _ => NaN
  end.

(** The literal is read exactly and then rounded to binary64. *)
Definition StringToNumber (s : string) : JsNumber :=
  match trim (bytes_of s) with
  | [] => of_Z 0
  | (_ :: _) as cs =>
      match radix_prefix cs with
      | Some (base, r) => non_decimal base r
      | None =>
          let '(neg, r) := sign_of cs in
          if decide (r = bytes_of "Infinity") then
            (if neg then NegInfinity else PosInfinity)
          else
            match unsigned_decimal r with
            | Some q => binary64 (Finite (if neg then Qopp q else q))
            | None => NaN
            end
      end
  end.

(** [Number(v)]; [None] when the conversion throws a TypeError. *)
Definition Number (v : JsValue) : option JsNumber :=
  match v with
  | JUndefined => Some NaN
  | JNull => Some (of_Z 0)
  | JBool b => Some (of_Z (if b then 1 else 0))
  | JNumber n => Some (binary64 n)
  | JString s => Some (StringToNumber s)
  | JCompound s => Some (StringToNumber s)
  | JOpaque => None
  end.

(** [Number(a) !== Number(b)]; [None] when one of the conversions throws. *)
Definition numbers_differ (a b : JsValue) : option bool :=
  match Number a, Number b with
  | Some x, Some y => Some (number_neq x y)
  | _, _ => None
  end.

(** A binary64 value other than zero and [NaN]. *)
Definition nonzero (n : JsNumber) : bool :=
  match n with
  | NaN => false
  | Finite q => negb (Qeq_bool q 0)
  | _ => true
  end.

(** ToBoolean: the test of [if (v)], [!v] and [v || w]. *)
Definition truthy (v : JsValue) : bool :=
  match v with
  | JUndefined | JNull => false
  | JBool b => b
  | JNumber n => nonzero (binary64 n)
  | JString s => negb (String.eqb s "")
  | JCompound _ | JOpaque => true
  end.

(** [v || w] *)
Definition or_else (v w : JsValue) : JsValue := if truthy v then v else w.

End Js.

Import Js.

(** ** Objects, requests and responses *)

(** A JavaScript object with scalar properties: a parsed JSON body, a result
    row. *)
Abbreviation JsObject := (gmap string JsValue).

(** [o.k]: reading a property that is not there gives [undefined]. *)
Definition prop (o : JsObject) (k : string) : JsValue := default JUndefined (o !! k).

(** A property of a response body: a scalar or a nested row object. *)
Inductive Json : Type :=
| JValue (v : JsValue)
| JRecord (o : JsObject).

Record Response : Type := { status : Z; json : gmap string Json }.

(** [res.status(code).json(payload)] *)
Definition status_json (code : Z) (payload : gmap string Json) : Response :=
  {| status := code; json := payload |}.

(** [res.json(payload)] *)
Definition res_json (payload : gmap string Json) : Response := status_json 200 payload.

(** [{ mensaje: text }] *)
Definition mensaje (text : string) : gmap string Json :=
  {[ "mensaje" := JValue (JString text) ]}.

(** ** Awaited operations *)

Inductive Error : Type :=
| TypeError
| SqlError (code : string).

Definition ER_DUP_ENTRY : Error := SqlError "ER_DUP_ENTRY".

Abbreviation Result X := (Error + X)%type.

(** What a statement that writes resolves to. *)
Record ResultSetHeader : Type := { insertId : Z; affectedRows : Z }.

(** The statements of the handlers, indexed by what they resolve to. *)
Inductive Sql : Type -> Type :=
| SELECT_usuario_id_FROM_libros : Sql (list JsObject)
| UPDATE_libros : Sql ResultSetHeader
| DELETE_FROM_libros : Sql ResultSetHeader
| SELECT_id_FROM_usuarios : Sql (list JsObject)
| INSERT_INTO_usuarios : Sql ResultSetHeader
| SELECT_FROM_usuarios : Sql (list JsObject).

Definition sql_text {R} (s : Sql R) : string :=
  match s with
  | SELECT_usuario_id_FROM_libros => "SELECT usuario_id FROM libros WHERE id = ?"
  | UPDATE_libros => "UPDATE libros SET titulo=?, autor=?, anio=? WHERE id=?"
  | DELETE_FROM_libros => "DELETE FROM libros WHERE id = ?"
  | SELECT_id_FROM_usuarios => "SELECT id FROM usuarios WHERE correo = ?"
  | INSERT_INTO_usuarios => "INSERT INTO usuarios (correo, contrasena, nombre) VALUES (?, ?, ?)"
  | SELECT_FROM_usuarios => "SELECT id, correo, nombre, contrasena FROM usuarios WHERE correo = ?"
  end.

(** The promises a handler awaits: [query(sql, params)], [bcrypt.hash] and
    [bcrypt.compare]. *)
Inductive Op : Type -> Type :=
| query {R} (sql : Sql R) (sql_params : list JsValue) : Op R
| bcrypt_hash_op (data : JsValue) (rounds : Z) : Op string
| bcrypt_compare_op (data : JsValue) (encrypted : JsValue) : Op bool.

(** An async handler body: it responds, or awaits an operation and goes on
    with how the promise settled (rejected with an error, or resolved). *)
Inductive Async (A : Type) : Type :=
| Return (a : A)
| Await {X : Type} (op : Op X) (k : Result X -> Async A).

Arguments Return {A} a.
Arguments Await {A X} op k.

(** [await op] inside [try { ... } catch (err) { return handler }]. *)
Definition try_await {A X} (catch : Error -> A) (op : Op X) (k : X -> Async A) : Async A :=
  Await op (fun settled =>
    match settled with
    | inl err => Return (catch err)
    | inr x => k x
    end).

(** One labelled step: [p] awaits [op] and, once it settles as [r], goes on as [p']. *)
Inductive resumes {A} : Async A -> forall X, Op X -> Result X -> Async A -> Prop :=
| resumes_await X (op : Op X) (k : Result X -> Async A) (r : Result X) :
    resumes (Await op k) X op r (k r).

Arguments resumes {A} p {X} op r p'.

(** ** Handlers

    A handler is a function of what it reads from the request: [id] is
    [req.params.id], a string for the routes [/libros/:id], and [body] is
    [req.body], the parsed JSON object.  The [console.error] of the [catch]
    blocks is not modelled. *)

(** The tail of [app.put("/libros/:id")]: the UPDATE and the response after it. *)
Definition actualizar_update (id : string) (body : JsObject) : Async Response :=
  let catch := fun _ : Error => status_json 500 (mensaje "Error al actualizar libro") in
  let titulo := prop body "titulo" in
  let autor := prop body "autor" in
  let anio := prop body "anio" in
  try_await catch (query UPDATE_libros [titulo; autor; anio; JString id]) (fun _ =>
  Return (res_json (mensaje "Libro actualizado"))).

(** [app.put("/libros/:id")] *)
Definition actualizar (id : string) (body : JsObject) : Async Response :=
  let catch := fun _ : Error => status_json 500 (mensaje "Error al actualizar libro") in
  let usuarioId := prop body "usuarioId" in
  if truthy usuarioId then
    try_await catch (query SELECT_usuario_id_FROM_libros [JString id]) (fun rows =>
    match rows with
    | [] => Return (status_json 404 (mensaje "Libro no encontrado"))
    | row :: _ =>
        match numbers_differ (prop row "usuario_id") usuarioId with
        | Some true =>
            Return (status_json 403 (mensaje "No autorizado para actualizar este libro"))
        | Some false => actualizar_update id body
        | None => Return (catch TypeError)
        end
    end)
  else actualizar_update id body.

(** The tail of [app.delete("/libros/:id")]: the DELETE and the response after it. *)
Definition eliminar_delete (id : string) : Async Response :=
  let catch := fun _ : Error => status_json 500 (mensaje "Error al eliminar libro") in
  try_await catch (query DELETE_FROM_libros [JString id]) (fun _ =>
  Return (res_json (mensaje "Libro eliminado"))).

(** [app.delete("/libros/:id")] *)
Definition eliminar (id : string) (body : JsObject) : Async Response :=
  let catch := fun _ : Error => status_json 500 (mensaje "Error al eliminar libro") in
  let usuarioId := prop body "usuarioId" in
  if negb (truthy usuarioId) then
    Return (status_json 400 (mensaje "Se requiere usuarioId para eliminar"))
  else
    try_await catch (query SELECT_usuario_id_FROM_libros [JString id]) (fun rows =>
    match rows with
    | [] => Return (status_json 404 (mensaje "Libro no encontrado"))
    | row :: _ =>
        match numbers_differ (prop row "usuario_id") usuarioId with
        | Some true =>
            Return (status_json 403 (mensaje "No autorizado para eliminar este libro"))
        | Some false => eliminar_delete id
        | None => Return (catch TypeError)
        end
    end).

(** [app.post("/usuarios/registro")] *)
Definition registro (body : JsObject) : Async Response :=
  let catch := fun _ : Error => status_json 500 (mensaje "Error en el registro") in
  let correo := prop body "correo" in
  let contrasena := prop body "contrasena" in
  let nombre := prop body "nombre" in
  if negb (truthy correo) || negb (truthy contrasena) then
    Return (status_json 400 (mensaje "Correo y contraseña son obligatorios"))
  else
    try_await catch (query SELECT_id_FROM_usuarios [correo]) (fun existing =>
    if (0 <? Z.of_nat (length existing)) then
      Return (status_json 409 (mensaje "El correo ya está registrado"))
    else
      try_await catch (bcrypt_hash_op contrasena 10) (fun hash =>
      try_await catch
        (query INSERT_INTO_usuarios [correo; JString hash; or_else nombre JNull])
        (fun result =>
      Return (res_json (<[ "id" := JValue (JInt (insertId result)) ]>
                          (mensaje "Usuario registrado correctamente")))))).

(** [app.post("/usuarios/login")] *)
Definition login (body : JsObject) : Async Response :=
  let catch := fun _ : Error => status_json 500 (mensaje "Error en el login") in
  let correo := prop body "correo" in
  let contrasena := prop body "contrasena" in
  if negb (truthy correo) || negb (truthy contrasena) then
    Return (status_json 400 (mensaje "Correo y contraseña son obligatorios"))
  else
    try_await catch (query SELECT_FROM_usuarios [correo]) (fun rows =>
    match rows with
    | [] => Return (status_json 401 (mensaje "Correo o contraseña incorrectos"))
    | user :: _ =>
        try_await catch (bcrypt_compare_op contrasena (prop user "contrasena")) (fun ok =>
        if negb ok then
          Return (status_json 401 (mensaje "Correo o contraseña incorrectos"))
        else
          let user := delete "contrasena" user in
          Return (res_json (<[ "usuario" := JRecord user ]> (mensaje "Login exitoso"))))
    end).

(** What a failed login is answered. *)
Definition invalid_credentials : Response :=
  status_json 401 (mensaje "Correo o contraseña incorrectos").

(** ** The record store *)

(** Modelled from the spec: the schema of the two tables, which the repository
    does not carry.  A book has a generated integer id, a title and an author
    (text), a year (integer or null) and an owning user id (integer or null);
    a user has a generated integer id, an email (text, unique), a password
    hash (text) and a name (text or null). *)
Record Libro : Type := {
  libro_id : Z;
  libro_titulo : string;
  libro_autor : string;
  libro_anio : option Z;
  libro_usuario_id : option Z
}.

Record Usuario : Type := {
  usuario_id : Z;
  usuario_correo : string;
  usuario_contrasena : string;
  usuario_nombre : option string
}.

(** The store, and the counter that stands for the randomness bcrypt draws
    its salts from. *)
Record World : Type := {
  libros : list Libro;
  usuarios : list Usuario;
  usuarios_auto_increment : Z;
  entropy : nat
}.

Definition with_libros (w : World) (ls : list Libro) : World :=
  {| libros := ls; usuarios := usuarios w;
     usuarios_auto_increment := usuarios_auto_increment w; entropy := entropy w |}.

Module Store.

(** The integer a bound parameter denotes, if any: a JavaScript number whose
    binary64 value is integral ([binary64] yields fractions in lowest terms),
    or a string of decimal digits with an optional sign. *)
Definition int_of (p : JsValue) : option Z :=
  match p with
  | JNumber n =>
      match binary64 n with
      | Finite r => if (Zpos (Qden r) =? 1) then Some (Qnum r) else None
      | _ => None
      end
  | JString s =>
      let '(neg, r) := sign_of (bytes_of s) in
      match digits 10 r 0 0 with
      | (v, n, []) => if 0 <? n then Some (signed neg v) else None
      | _ => None
      end
  | _ => None
  end.

(** [column = ?] on an integer column. *)
Definition int_eq (column : Z) (p : JsValue) : bool :=
  match int_of p with
  | Some z => column =? z
  | None => false
  end.

(** [column = ?] on a text column. *)
Definition text_eq (column : string) (p : JsValue) : bool :=
  match p with
  | JString s => String.eqb column s
  | _ => false
  end.

(** Binding a parameter: the driver refuses [undefined]. *)
Definition bound (p : JsValue) : Result JsValue :=
  match p with
  | JUndefined => inl TypeError
  | _ => inr p
  end.

(** The value a text column takes from a bound parameter. *)
Definition text_value (p : JsValue) : Result (option string) :=
  match p with
  | JUndefined => inl TypeError
  | JNull => inr None
  | JString s => inr (Some s)
  | _ => inl (SqlError "ER_TRUNCATED_WRONG_VALUE_FOR_FIELD")
  end.

(** The value an integer column takes from a bound parameter. *)
Definition int_value (p : JsValue) : Result (option Z) :=
  match p with
  | JUndefined => inl TypeError
  | JNull => inr None
  | _ =>
      match int_of p with
      | Some z => inr (Some z)
      | None => inl (SqlError "ER_TRUNCATED_WRONG_VALUE_FOR_FIELD")
      end
  end.

(** A column declared NOT NULL. *)
Definition not_null {V} (v : Result (option V)) : Result V :=
  match v with
  | inl e => inl e
  | inr None => inl (SqlError "ER_BAD_NULL_ERROR")
  | inr (Some x) => inr x
  end.

Definition js_of_int (c : option Z) : JsValue :=
  match c with
  | Some z => JInt z
  | None => JNull
  end.

Definition js_of_text (c : option string) : JsValue :=
  match c with
  | Some s => JString s
  | None => JNull
  end.

Definition wrong_arguments : Error := SqlError "ER_WRONG_ARGUMENTS".

(** [SELECT usuario_id FROM libros WHERE id = ?] *)
Definition select_usuario_id (id : JsValue) (w : World) : list JsObject :=
  map (fun l => {[ "usuario_id" := js_of_int (libro_usuario_id l) ]} : JsObject)
      (List.filter (fun l => int_eq (libro_id l) id) (libros w)).

(** [SET titulo=?, autor=?, anio=?] on one row. *)
Definition set_libro (titulo autor : string) (anio : option Z) (l : Libro) : Libro :=
  {| libro_id := libro_id l; libro_titulo := titulo; libro_autor := autor;
     libro_anio := anio; libro_usuario_id := libro_usuario_id l |}.

(** [UPDATE libros SET titulo=?, autor=?, anio=? WHERE id=?] *)
Definition update_libros (titulo autor : string) (anio : option Z) (id : JsValue)
    (w : World) : ResultSetHeader * World :=
  ({| insertId := 0;
      affectedRows := Z.of_nat (length (List.filter (fun l => int_eq (libro_id l) id) (libros w))) |},
   with_libros w
     (map (fun l => if int_eq (libro_id l) id then set_libro titulo autor anio l else l)
          (libros w))).

(** [DELETE FROM libros WHERE id = ?] *)
Definition delete_libros (id : JsValue) (w : World) : ResultSetHeader * World :=
  ({| insertId := 0;
      affectedRows := Z.of_nat (length (List.filter (fun l => int_eq (libro_id l) id) (libros w))) |},
   with_libros w (List.filter (fun l => negb (int_eq (libro_id l) id)) (libros w))).

(** [SELECT id FROM usuarios WHERE correo = ?] *)
Definition select_id (correo : JsValue) (w : World) : list JsObject :=
  map (fun u => {[ "id" := JInt (usuario_id u) ]} : JsObject)
      (List.filter (fun u => text_eq (usuario_correo u) correo) (usuarios w)).

Definition usuario_row (u : Usuario) : JsObject :=
  <[ "id" := JInt (usuario_id u) ]>
  (<[ "correo" := JString (usuario_correo u) ]>
  (<[ "nombre" := js_of_text (usuario_nombre u) ]>
  {[ "contrasena" := JString (usuario_contrasena u) ]})).

(** [SELECT id, correo, nombre, contrasena FROM usuarios WHERE correo = ?] *)
Definition select_usuarios (correo : JsValue) (w : World) : list JsObject :=
  map usuario_row (List.filter (fun u => text_eq (usuario_correo u) correo) (usuarios w)).

(** [INSERT INTO usuarios (correo, contrasena, nombre) VALUES (?, ?, ?)]: the
    unique key on [correo] rejects a second row with the same email. *)
Definition insert_usuario (correo contrasena : string) (nombre : option string)
    (w : World) : Result ResultSetHeader * World :=
  if existsb (fun u => String.eqb (usuario_correo u) correo) (usuarios w) then
    (inl ER_DUP_ENTRY, w)
  else
    let id := usuarios_auto_increment w in
    (inr {| insertId := id; affectedRows := 1 |},
     {| libros := libros w;
        usuarios := usuarios w ++
          [ {| usuario_id := id; usuario_correo := correo;
               usuario_contrasena := contrasena; usuario_nombre := nombre |} ];
        usuarios_auto_increment := id + 1;
        entropy := entropy w |}).

(** [pool.execute(sql, params)] *)
Definition execute {R} (sql : Sql R) (ps : list JsValue) (w : World) : Result R * World :=
  match sql in Sql R return Result R * World with
  | SELECT_usuario_id_FROM_libros =>
      match ps with
      | [id] =>
          match bound id with
          | inr id => (inr (select_usuario_id id w), w)
          | inl e => (inl e, w)
          end
      | _ => (inl wrong_arguments, w)
      end
  | UPDATE_libros =>
      match ps with
      | [titulo; autor; anio; id] =>
          match not_null (text_value titulo), not_null (text_value autor),
                int_value anio, bound id with
          | inr t, inr a, inr y, inr id =>
              let '(h, w') := update_libros t a y id w in (inr h, w')
          | inl e, _, _, _ | _, inl e, _, _ | _, _, inl e, _ | _, _, _, inl e => (inl e, w)
          end
      | _ => (inl wrong_arguments, w)
      end
  | DELETE_FROM_libros =>
      match ps with
      | [id] =>
          match bound id with
          | inr id => let '(h, w') := delete_libros id w in (inr h, w')
          | inl e => (inl e, w)
          end
      | _ => (inl wrong_arguments, w)
      end
  | SELECT_id_FROM_usuarios =>
      match ps with
      | [correo] =>
          match bound correo with
          | inr correo => (inr (select_id correo w), w)
          | inl e => (inl e, w)
          end
      | _ => (inl wrong_arguments, w)
      end
  | INSERT_INTO_usuarios =>
      match ps with
      | [correo; contrasena; nombre] =>
          match not_null (text_value correo), not_null (text_value contrasena),
                text_value nombre with
          | inr c, inr h, inr n => insert_usuario c h n w
          | inl e, _, _ | _, inl e, _ | _, _, inl e => (inl e, w)
          end
      | _ => (inl wrong_arguments, w)
      end
  | SELECT_FROM_usuarios =>
      match ps with
      | [correo] =>
          match bound correo with
          | inr correo => (inr (select_usuarios correo w), w)
          | inl e => (inl e, w)
          end
      | _ => (inl wrong_arguments, w)
      end
  end.

End Store.

(** ** Running a handler *)

(** The bcrypt library, taken as given: [bcrypt.hash(data, rounds)] with the
    randomness it draws, and [bcrypt.compare(data, encrypted)]; either may
    reject. *)
Class Bcrypt : Type := {
  bcrypt_hash : JsValue -> Z -> nat -> Result string;
  bcrypt_compare : JsValue -> JsValue -> Result bool
}.


Section Run.

Context {B : Bcrypt}.

(** How an awaited operation settles, and the store it leaves. *)
Definition exec {X} (op : Op X) (w : World) : Result X * World :=
  match op in Op X return Result X * World with
  | query sql ps => Store.execute sql ps w
  | bcrypt_hash_op data rounds =>
      (bcrypt_hash data rounds (entropy w),
       {| libros := libros w; usuarios := usuarios w;
          usuarios_auto_increment := usuarios_auto_increment w;
          entropy := S (entropy w) |})
  | bcrypt_compare_op data encrypted => (bcrypt_compare data encrypted, w)
  end.

(** The handler runs alone, from request to response. *)
Fixpoint run {A} (p : Async A) (w : World) : A * World :=
  match p with
  | Return a => (a, w)
  | Await op k => let '(r, w') := exec op w in run (k r) w'
  end.

(** One awaited operation of a handler; a handler that has responded stays. *)
Definition step {A} (p : Async A) (w : World) : Async A * World :=
  match p with
  | Return _ => (p, w)
  | Await op k => let '(r, w') := exec op w in (k r, w')
  end.

(** Two requests in flight: the schedule says whose operation settles next
    ([true] for the first). *)
Fixpoint interleave {A1 A2} (schedule : list bool) (p : Async A1) (q : Async A2)
    (w : World) : Async A1 * Async A2 * World :=
  match schedule with
  | [] => (p, q, w)
  | true :: rest => let '(p', w') := step p w in interleave rest p' q w'
  | false :: rest => let '(q', w') := step q w in interleave rest p q' w'
  end.

End Run.

(** ** A bcrypt to compute with

    An instance that stands in for the library where a run is evaluated: the
    hash of a string is the string behind one byte of salt, and anything but
    strings is rejected, as the library does. *)
Definition salted_bcrypt : Bcrypt := {|
  bcrypt_hash data rounds salt :=
    match data with
    | JString p => inr (String (ascii_of_nat (36 + salt)) p)
    | _ => inl TypeError
    end;
  bcrypt_compare data encrypted :=
    match data, encrypted with
    | JString p, JString (String _ h) => inr (String.eqb p h)
    | JString _, JString EmptyString => inr false
    | _, _ => inl TypeError
    end
|}.

Definition empty_world : World :=
  {| libros := []; usuarios := []; usuarios_auto_increment := 1; entropy := 0 |}.

Definition ana : JsObject :=
  <[ "correo" := JString "ana@example.com" ]>
  (<[ "contrasena" := JString "secreta" ]> {[ "nombre" := JString "Ana" ]}).

Definition quijote : Libro :=
  {| libro_id := 1; libro_titulo := "Don Quijote"; libro_autor := "Cervantes";
     libro_anio := Some 1605; libro_usuario_id := Some 5 |}.

Definition lazarillo : Libro :=
  {| libro_id := 2; libro_titulo := "Lazarillo de Tormes"; libro_autor := "";
     libro_anio := None; libro_usuario_id := None |}.

Definition celestina : Libro :=
  {| libro_id := 3; libro_titulo := "La Celestina"; libro_autor := "Rojas";
     libro_anio := Some 1499; libro_usuario_id := Some 0 |}.

Definition library : World :=
  {| libros := [quijote; lazarillo; celestina]; usuarios := [];
     usuarios_auto_increment := 1; entropy := 0 |}.

Definition edition : JsObject :=
  <[ "titulo" := JString "El Quijote" ]>
  (<[ "autor" := JString "Miguel de Cervantes" ]> {[ "anio" := JInt 1615 ]}).

Definition ana_otra_vez : JsObject := <[ "contrasena" := JString "olvidada" ]> ana.

Definition ana_registered : World :=
  {| libros := [];
     usuarios :=
       [ {| usuario_id := 1; usuario_correo := "ana@example.com";
            usuario_contrasena := "$secreta"; usuario_nombre := Some "Ana" |} ];
     usuarios_auto_increment := 2;
     entropy := 1 |}.

(** The store after a first registration of [correo]. *)
Definition registered (w : World) (correo hash : string) (nombre : option string) : World :=
  {| libros := libros w;
     usuarios := usuarios w ++
       [ {| usuario_id := usuarios_auto_increment w; usuario_correo := correo;
            usuario_contrasena := hash; usuario_nombre := nombre |} ];
     usuarios_auto_increment := usuarios_auto_increment w + 1;
     entropy := S (entropy w) |}.

(** ** Creating and listing books

    The two handlers that the book table has besides update and delete.  The
    store they run against adds to [World] the counter that generates book
    ids.  Each awaits one statement, given as the text the handler builds, so
    they are written in state-passing form. *)

Record Catalog : Type := {
  store : World;
  libros_auto_increment : Z
}.

Definition with_store (c : Catalog) (w : World) : Catalog :=
  {| store := w; libros_auto_increment := libros_auto_increment c |}.

Module Libros.

Definition parse_error : Error := SqlError "ER_PARSE_ERROR".

(** A row of [SELECT * FROM libros]. *)
Definition libro_row (l : Libro) : JsObject :=
  <[ "id" := JInt (libro_id l) ]>
  (<[ "titulo" := JString (libro_titulo l) ]>
  (<[ "autor" := JString (libro_autor l) ]>
  (<[ "anio" := Store.js_of_int (libro_anio l) ]>
  {[ "usuario_id" := Store.js_of_int (libro_usuario_id l) ]}))).

(** Modelled from the spec: the comparison of the list filter, which the
    statement leaves to the store, is numeric equality after coercion of the
    stored owner and of the parameter.  A NULL owner equals nothing. *)
Definition owned_by (p : JsValue) (l : Libro) : bool :=
  match libro_usuario_id l with
  | Some u =>
      match numbers_differ (JInt u) p with
      | Some false => true
      | _ => false
      end
  | None => false
  end.

(** [INSERT INTO libros (titulo, autor, anio, usuario_id) VALUES (?, ?, ?, ?)] *)
Definition insert_libro (titulo autor : string) (anio usuario : option Z) (c : Catalog)
    : ResultSetHeader * Catalog :=
  let id := libros_auto_increment c in
  ({| insertId := id; affectedRows := 1 |},
   {| store :=
        with_libros (store c)
          (libros (store c) ++
             [ {| libro_id := id; libro_titulo := titulo; libro_autor := autor;
                  libro_anio := anio; libro_usuario_id := usuario |} ]);
      libros_auto_increment := id + 1 |}).

(** [query(sql, params)] on a statement that writes to [libros]. *)
Definition query_write (sql : string) (ps : list JsValue) (c : Catalog)
    : Result ResultSetHeader * Catalog :=
  if String.eqb sql "INSERT INTO libros (titulo, autor, anio, usuario_id) VALUES (?, ?, ?, ?)"
  then
    match ps with
    | [titulo; autor; anio; usuario] =>
        match Store.not_null (Store.text_value titulo),
              Store.not_null (Store.text_value autor),
              Store.int_value anio, Store.int_value usuario with
        | inr t, inr a, inr y, inr u => let '(h, c') := insert_libro t a y u c in (inr h, c')
        | inl e, _, _, _ | _, inl e, _, _ | _, _, inl e, _ | _, _, _, inl e => (inl e, c)
        end
    | _ => (inl Store.wrong_arguments, c)
    end
  else (inl parse_error, c).

(** [query(sql, params)] on a statement that reads [libros]. *)
Definition query_read (sql : string) (ps : list JsValue) (c : Catalog)
    : Result (list JsObject) * Catalog :=
  if String.eqb sql "SELECT * FROM libros" then
    match ps with
    | [] => (inr (map libro_row (libros (store c))), c)
    | _ => (inl Store.wrong_arguments, c)
    end
  else if String.eqb sql "SELECT * FROM libros WHERE usuario_id = ?" then
    match ps with
    | [usuario] =>
        match Store.bound usuario with
        | inr usuario =>
            (inr (map libro_row (List.filter (owned_by usuario) (libros (store c)))), c)
        | inl e => (inl e, c)
        end
    | _ => (inl Store.wrong_arguments, c)
    end
  else (inl parse_error, c).

End Libros.

(** [app.post("/libros")] *)
Definition crear (body : JsObject) (c : Catalog) : Response * Catalog :=
  let catch := fun _ : Error => status_json 500 (mensaje "Error al crear libro") in
  let titulo := prop body "titulo" in
  let autor := prop body "autor" in
  let anio := prop body "anio" in
  let usuarioId := prop body "usuarioId" in
  let sql := "INSERT INTO libros (titulo, autor, anio, usuario_id) VALUES (?, ?, ?, ?)" in
  match Libros.query_write sql [titulo; autor; anio; or_else usuarioId JNull] c with
  | (inr result, c') =>
      (res_json
         (<[ "id" := JValue (JInt (insertId result)) ]>
         (<[ "titulo" := JValue titulo ]>
         (<[ "autor" := JValue autor ]>
         (<[ "anio" := JValue anio ]>
         {[ "usuarioId" := JValue (or_else usuarioId JNull) ]})))),
       c')
  | (inl err, c') => (catch err, c')
  end.

(** What [app.get("/libros")] answers: [res.json(rows)], or the response of
    its [catch] block. *)
Inductive Listing : Type :=
| Listed (rows : list JsObject)
| NotListed (r : Response).

(** [app.get("/libros")]; [query_string] is [req.query]. *)
Definition listar (query_string : JsObject) (c : Catalog) : Listing * Catalog :=
  let catch := fun _ : Error => status_json 500 (mensaje "Error al obtener libros") in
  let usuarioId := prop query_string "usuarioId" in
  let sql := "SELECT * FROM libros" in
  let params : list JsValue := [] in
  let '(sql, params) :=
    if truthy usuarioId
    then ((sql ++ " WHERE usuario_id = ?")%string, (params ++ [usuarioId])%list)
    else (sql, params) in
  match Libros.query_read sql params c with
  | (inr rows, c') => (Listed rows, c')
  | (inl err, c') => (NotListed (catch err), c')
  end.

(** ** Every way a handler can end *)

(** [answers P p]: however the operations [p] awaits settle, the response
    satisfies [P]. *)
Fixpoint answers {A} (P : A -> Prop) (p : Async A) : Prop :=
  match p with
  | Return a => P a
  | Await op k => forall r, answers P (k r)
  end.

(** [guarded r ok p]: a rejected operation makes [p] respond [r] at once, and
    a response given after everything resolved satisfies [ok]. *)
Fixpoint guarded {A} (r : A) (ok : A -> Prop) (p : Async A) : Prop :=
  match p with
  | Return a => ok a
  | Await op k => (forall e, k (inl e) = Return r) /\ (forall x, guarded r ok (k (inr x)))
  end.

Section Serving.

Context {B : Bcrypt}.

(** The error of the first operation that rejects in the run of [p], if any. *)
Fixpoint rejection {A} (p : Async A) (w : World) : option Error :=
  match p with
  | Return _ => None
  | Await op k =>
      match exec op w with
      | (inl e, _) => Some e
      | (inr x, w') => rejection (k (inr x)) w'
      end
  end.

(** A handler of the other routes, run on the store of the catalogue. *)
Definition serve {A} (p : Async A) (c : Catalog) : A * Catalog :=
  let '(a, w) := run p (store c) in (a, with_store c w).

End Serving.

(** The ids of the books are pairwise distinct and below the counter that
    generates the next one. *)
Definition well_keyed (c : Catalog) : Prop :=
  let ids := map libro_id (libros (store c)) in
  NoDup ids /\ Forall (fun z => z < libros_auto_increment c) ids.

Definition shelf : Catalog := {| store := library; libros_auto_increment := 4 |}.

Definition novela : JsObject :=
  <[ "titulo" := JString "La Regenta" ]>
  (<[ "autor" := JString "Clarín" ]>
  (<[ "anio" := JInt 1884 ]> {[ "usuarioId" := JString "5" ]})).

(** ** Properties *)

(** *** Coercions on examples *)

Example number_5 : Number (JString "5") = Some (of_Z 5). Proof. reflexivity. Qed.
Example number_ws : Number (JString "  12.50e1 ") = Some (of_Z 125). Proof. reflexivity. Qed.
Example number_abc : Number (JString "abc") = Some NaN. Proof. reflexivity. Qed.
Example number_hex : Number (JString "0x1F") = Some (of_Z 31). Proof. reflexivity. Qed.
Example number_inf : Number (JString "-Infinity") = Some NegInfinity. Proof. reflexivity. Qed.
Example number_empty : Number (JString "") = Some (of_Z 0). Proof. reflexivity. Qed.
Example number_dot : Number (JString ".") = Some NaN. Proof. reflexivity. Qed.
Example number_5dot : Number (JString "5.") = Some (of_Z 5). Proof. reflexivity. Qed.
Example number_m0 : Number (JString "-0") = Some (of_Z 0). Proof. reflexivity. Qed.
Example number_1e : Number (JString "1e") = Some NaN. Proof. reflexivity. Qed.
Example number_sign_hex : Number (JString "-0x10") = Some NaN. Proof. reflexivity. Qed.
Example number_rounds : Number (JString "5.0000000000000000001") = Some (of_Z 5).
Proof. reflexivity. Qed.
Example number_tie_to_even : Number (JString "9007199254740993") = Some (of_Z 9007199254740992).
Proof. reflexivity. Qed.
Example number_underflow : Number (JString "1e-400") = Some (of_Z 0).
Proof. vm_compute. reflexivity. Qed.
Example number_overflow : Number (JString "1e400") = Some PosInfinity.
Proof. vm_compute. reflexivity. Qed.
Example number_tenth :
  Number (JString "0.1") = Some (Finite (3602879701896397 # 36028797018963968)).
Proof. reflexivity. Qed.
Example number_opaque : Number JOpaque = None. Proof. reflexivity. Qed.

(** *** The handlers *)

(** *** The store's integers and the coercion agree *)

Lemma number_eq_refl (x : JsNumber) : x <> NaN -> number_eq x x = true.
Proof.
  destruct x as [| | | q]; intros H; try reflexivity; [contradiction |].
  apply Qeq_bool_iff. reflexivity.
Qed.

Lemma binary64_of_ratio_not_NaN (n d : Z) : binary64_of_ratio n d <> NaN.
Proof.
  unfold binary64_of_ratio.
  repeat match goal with |- context [if ?b then _ else _] => destruct b end; discriminate.
Qed.

Lemma binary64_not_NaN (q : Q) : binary64 (Finite q) <> NaN.
Proof.
  unfold binary64. destruct (Qnum (Qred q)) as [| p | p]; [discriminate | |].
  - apply binary64_of_ratio_not_NaN.
  - pose proof (binary64_of_ratio_not_NaN (Zpos p) (Zpos (Qden (Qred q)))) as H.
    destruct (binary64_of_ratio _ _); [contradiction | discriminate ..].
Qed.

Lemma binary64_Qeq (p q : Q) : (p == q)%Q -> binary64 (Finite p) = binary64 (Finite q).
Proof. intros H. unfold binary64. rewrite (Qred_complete _ _ H). reflexivity. Qed.

Lemma round_half_even_exact (n d : Z) : 0 < d -> n mod d = 0 -> round_half_even n d = n / d.
Proof.
  intros Hd Hmod. unfold round_half_even. rewrite Hmod, Z.mul_0_r.
  replace (0 ?= d) with Lt by (symmetry; apply Z.compare_lt_iff; exact Hd). reflexivity.
Qed.

Lemma round_half_even_le (n d : Z) : round_half_even n d <= n / d + 1.
Proof.
  unfold round_half_even. destruct (2 * (n mod d) ?= d); [destruct (Z.even (n / d)) | |]; lia.
Qed.

Lemma round_half_even_nonneg (n d : Z) : 0 <= n -> 0 < d -> 0 <= round_half_even n d.
Proof.
  intros Hn Hd. pose proof (Z.div_pos n d Hn Hd).
  unfold round_half_even. destruct (2 * (n mod d) ?= d); [destruct (Z.even (n / d)) | |]; lia.
Qed.

(** The exponent [binary64_of_ratio] settles on bounds the ratio from above. *)
Lemma ratio_below (n d i j : Z) :
  0 < n -> 0 < d -> 0 <= j -> 0 <= i ->
  let k := Z.log2 n - Z.log2 d in
  let reached := if 0 <=? k then d * 2 ^ k <=? n else d <=? n * 2 ^ (- k) in
  let f := if reached then k else k - 1 in
  f + 1 + j <= i -> n * 2 ^ j < d * 2 ^ i.
Proof.
  intros Hn Hd Hj Hi0 k reached f Hi.
  pose proof (Z.log2_spec n Hn) as [_ Hn2]. pose proof (Z.log2_spec d Hd) as [Hd1 _].
  pose proof (Z.log2_nonneg n) as Hln. pose proof (Z.log2_nonneg d) as Hld.
  assert (Hpj : 0 < 2 ^ j) by (apply Z.pow_pos_nonneg; lia).
  assert (Hpi : 0 < 2 ^ i) by (apply Z.pow_pos_nonneg; lia).
  destruct reached eqn:Hreached; subst f.
  - assert (Hle : Z.log2 n + 1 + j <= Z.log2 d + i) by (subst k; lia).
    assert (H1 : n * 2 ^ j < 2 ^ (Z.succ (Z.log2 n)) * 2 ^ j)
      by (apply Z.mul_lt_mono_pos_r; assumption).
    rewrite <- Z.pow_add_r in H1 by lia.
    assert (H2 : 2 ^ (Z.succ (Z.log2 n) + j) <= 2 ^ (Z.log2 d + i))
      by (apply Z.pow_le_mono_r; lia).
    rewrite (Z.pow_add_r 2 (Z.log2 d) i) in H2 by lia.
    assert (H3 : 2 ^ Z.log2 d * 2 ^ i <= d * 2 ^ i)
      by (apply Z.mul_le_mono_nonneg_r; lia).
    lia.
  - subst reached. destruct (0 <=? k) eqn:Hk.
    + apply Z.leb_le in Hk. apply Z.leb_gt in Hreached.
      assert (H1 : n * 2 ^ j < d * 2 ^ k * 2 ^ j)
        by (apply Z.mul_lt_mono_pos_r; assumption).
      rewrite <- Z.mul_assoc, <- Z.pow_add_r in H1 by lia.
      assert (H2 : 2 ^ (k + j) <= 2 ^ i) by (apply Z.pow_le_mono_r; lia).
      assert (H3 : d * 2 ^ (k + j) <= d * 2 ^ i)
        by (apply Z.mul_le_mono_nonneg_l; lia).
      lia.
    + apply Z.leb_gt in Hk. apply Z.leb_gt in Hreached.
      assert (H2 : 2 ^ j <= 2 ^ (- k + i)) by (apply Z.pow_le_mono_r; lia).
      rewrite (Z.pow_add_r 2 (- k) i) in H2 by lia.
      assert (H3 : n * 2 ^ j <= n * (2 ^ (- k) * 2 ^ i))
        by (apply Z.mul_le_mono_nonneg_l; lia).
      assert (H4 : n * 2 ^ (- k) * 2 ^ i < d * 2 ^ i)
        by (apply Z.mul_lt_mono_pos_r; assumption).
      lia.
Qed.

Lemma Qred_integer (z : Z) : Qred (z # 1) = z # 1.
Proof.
  unfold Qred. pose proof (Z.ggcd_gcd z 1) as Hg. pose proof (Z.ggcd_correct_divisors z 1) as Hc.
  destruct (Z.ggcd z 1) as [g [a b]]. cbn [fst snd] in *.
  rewrite Z.gcd_1_r in Hg. subst g. destruct Hc as [-> Hb].
  assert (b = 1) by lia. subst b. f_equal; lia.
Qed.

Lemma pow2_divide (a b : Z) : 0 <= a <= b -> (2 ^ a | 2 ^ b).
Proof.
  intros H. exists (2 ^ (b - a)). rewrite <- Z.pow_add_r by lia. f_equal. lia.
Qed.

(** An integer below 2^1024 with at most 53 significant bits is a binary64
    value. *)
Lemma binary64_of_ratio_fixed (z : Z) :
  0 < z < 2 ^ 1024 -> (52 <= Z.log2 z -> (2 ^ (Z.log2 z - 52) | z)) ->
  binary64_of_ratio z 1 = Finite (z # 1).
Proof.
  intros [Hz Hmax] Hbits. unfold binary64_of_ratio.
  change (Z.log2 1) with 0. rewrite Z.sub_0_r.
  pose proof (Z.log2_nonneg z) as Hl. pose proof (Z.log2_spec z Hz) as [Hlow _].
  set (l := Z.log2 z) in *.
  replace (0 <=? l) with true by (symmetry; apply Z.leb_le; exact Hl).
  replace (1 * 2 ^ l <=? z) with true by (symmetry; apply Z.leb_le; lia).
  destruct (Z.le_gt_cases 52 l) as [Hbig | Hsmall].
  - rewrite Z.max_l by lia.
    replace (0 <=? l - 52) with true by (symmetry; apply Z.leb_le; lia).
    assert (Hp : 0 < 2 ^ (l - 52)) by (apply Z.pow_pos_nonneg; lia).
    rewrite Z.mul_1_l.
    destruct (Hbits Hbig) as [c Hc].
    assert (Hmod : z mod 2 ^ (l - 52) = 0) by (rewrite Hc; apply Z.mod_mul; lia).
    rewrite (round_half_even_exact _ _ Hp Hmod).
    assert (Hback : z / 2 ^ (l - 52) * 2 ^ (l - 52) = z).
    { rewrite Hc at 1. rewrite Z.div_mul by lia. symmetry. exact Hc. }
    rewrite Hback.
    replace (2 ^ 1024 <=? z) with false by (symmetry; apply Z.leb_gt; exact Hmax).
    reflexivity.
  - rewrite Z.max_l by lia.
    replace (0 <=? l - 52) with false by (symmetry; apply Z.leb_gt; lia).
    assert (Hp : 0 < 2 ^ (- (l - 52))) by (apply Z.pow_pos_nonneg; lia).
    rewrite round_half_even_exact by (try apply Z.mod_1_r; lia).
    rewrite Z.div_1_r. f_equal.
    rewrite <- (Qred_integer z). apply Qred_complete.
    unfold Qeq. cbn [Qnum Qden]. rewrite Z2Pos.id by exact Hp. lia.
Qed.

(** An integer that [binary64_of_ratio] yields is zero or such a value. *)
Lemma binary64_of_ratio_integer (n d z : Z) :
  0 < n -> 0 < d -> binary64_of_ratio n d = Finite (z # 1) ->
  z = 0 \/ (0 < z < 2 ^ 1024 /\ (52 <= Z.log2 z -> (2 ^ (Z.log2 z - 52) | z))).
Proof.
  intros Hn Hd. unfold binary64_of_ratio.
  pose proof (fun i j => ratio_below n d i j Hn Hd) as Hbelow. cbv zeta in Hbelow.
  set (f := if (if 0 <=? Z.log2 n - Z.log2 d
                then d * 2 ^ (Z.log2 n - Z.log2 d) <=? n
                else d <=? n * 2 ^ (- (Z.log2 n - Z.log2 d)))
            then Z.log2 n - Z.log2 d else Z.log2 n - Z.log2 d - 1) in *.
  set (e := Z.max (f - 52) (-1074)).
  assert (He : f - 52 <= e) by (subst e; lia).
  destruct (0 <=? e) eqn:Hsign.
  - apply Z.leb_le in Hsign.
    assert (Hp : 0 < 2 ^ e) by (apply Z.pow_pos_nonneg; lia).
    set (m := round_half_even n (d * 2 ^ e)).
    assert (Hm0 : 0 <= m) by (apply round_half_even_nonneg; lia).
    assert (Hm : m <= 2 ^ 53).
    { pose proof (round_half_even_le n (d * 2 ^ e)) as Hle. fold m in Hle.
      assert (Hlt : n / (d * 2 ^ e) < 2 ^ 53).
      { apply Z.div_lt_upper_bound; [lia |].
        pose proof (Hbelow (e + 53) 0 ltac:(lia) ltac:(lia) ltac:(lia)) as H.
        rewrite Z.pow_0_r, Z.mul_1_r, Z.pow_add_r in H by lia. lia. }
      lia. }
    destruct (2 ^ 1024 <=? m * 2 ^ e) eqn:Hover; [discriminate |].
    apply Z.leb_gt in Hover. intros H. injection H as <-.
    destruct (Z.eq_dec m 0) as [-> | Hnz]; [left; reflexivity | right].
    assert (Hz : 0 < m * 2 ^ e) by (apply Z.mul_pos_pos; lia).
    split; [lia |]. intros Hbig.
    assert (Hup : m * 2 ^ e <= 2 ^ (53 + e)).
    { rewrite Z.pow_add_r by lia. apply Z.mul_le_mono_nonneg_r; lia. }
    destruct (Z.eq_dec (m * 2 ^ e) (2 ^ (53 + e))) as [Heq | Hneq].
    + rewrite Heq, Z.log2_pow2 by lia. apply pow2_divide. lia.
    + assert (Hlog : Z.log2 (m * 2 ^ e) < 53 + e) by (apply Z.log2_lt_pow2; lia).
      apply Z.divide_trans with (2 ^ e); [apply pow2_divide | apply Z.divide_factor_r].
      lia.
  - apply Z.leb_gt in Hsign.
    assert (Hp : 0 < 2 ^ (- e)) by (apply Z.pow_pos_nonneg; lia).
    assert (Hp2 : 2 <= 2 ^ (- e)).
    { change 2 with (2 ^ 1) at 1. apply Z.pow_le_mono_r; lia. }
    set (m := round_half_even (n * 2 ^ (- e)) d).
    assert (Hm0 : 0 <= m) by (apply round_half_even_nonneg; lia).
    assert (Hm : m <= 2 ^ 53).
    { pose proof (round_half_even_le (n * 2 ^ (- e)) d) as Hle. fold m in Hle.
      assert (Hlt : n * 2 ^ (- e) / d < 2 ^ 53).
      { apply Z.div_lt_upper_bound; [lia |].
        exact (Hbelow 53 (- e) ltac:(lia) ltac:(lia) ltac:(lia)). }
      lia. }
    intros H. injection H as H.
    assert (Hq : (m # Z.to_pos (2 ^ (- e)) == z # 1)%Q).
    { rewrite <- H. symmetry. apply Qred_correct. }
    unfold Qeq in Hq. cbn [Qnum Qden] in Hq. rewrite Z2Pos.id in Hq by exact Hp.
    destruct (Z.eq_dec z 0) as [-> | Hnz]; [left; reflexivity | right].
    assert (Hz : 0 < z) by nia.
    assert (Hz52 : z * 2 <= 2 ^ 53) by nia.
    change (2 ^ 53) with (2 ^ 52 * 2) in Hz52.
    assert (Hle52 : z <= 2 ^ 52) by lia.
    assert (Hlog : Z.log2 z < 53) by (apply Z.log2_lt_pow2; [lia |]; change (2 ^ 53) with (2 ^ 52 * 2); lia).
    split.
    + split; [exact Hz |]. apply Z.le_lt_trans with (2 ^ 52); [exact Hle52 |].
      apply Z.pow_lt_mono_r; lia.
    + intros Hbig. replace (Z.log2 z - 52) with 0 by lia. apply Z.divide_1_l.
Qed.

(** Rounding an integer that rounding has yielded changes nothing. *)
Lemma binary64_integer_fixed (n : JsNumber) (z : Z) :
  binary64 n = Finite (z # 1) -> binary64 (of_Z z) = Finite (z # 1).
Proof.
  assert (Hpos : forall p : positive,
            0 < Z.pos p < 2 ^ 1024 /\
            (52 <= Z.log2 (Z.pos p) -> (2 ^ (Z.log2 (Z.pos p) - 52) | Z.pos p)) ->
            binary64 (of_Z (Z.pos p)) = Finite (Z.pos p # 1)).
  { intros p [Hr Hb]. unfold of_Z, binary64, inject_Z. rewrite Qred_integer. cbn [Qnum Qden].
    apply binary64_of_ratio_fixed; assumption. }
  assert (Hneg : forall p : positive,
            0 < Z.pos p < 2 ^ 1024 /\
            (52 <= Z.log2 (Z.pos p) -> (2 ^ (Z.log2 (Z.pos p) - 52) | Z.pos p)) ->
            binary64 (of_Z (Z.neg p)) = Finite (Z.neg p # 1)).
  { intros p [Hr Hb]. unfold of_Z, binary64, inject_Z. rewrite Qred_integer. cbn [Qnum Qden].
    rewrite binary64_of_ratio_fixed by assumption. reflexivity. }
  destruct n as [| | | q]; try discriminate.
  unfold binary64 at 1. destruct (Qnum (Qred q)) as [| a | a].
  - intros H. injection H as <-. reflexivity.
  - intros H.
    apply binary64_of_ratio_integer in H as [-> | Hr]; [reflexivity | | lia | lia].
    destruct z as [| p | p]; [lia | apply Hpos; exact Hr | lia].
  - destruct (binary64_of_ratio (Z.pos a) (Z.pos (Qden (Qred q)))) as [| | | [x y]] eqn:Hratio;
      try discriminate.
    cbn [negate Qopp Qnum Qden]. intros H. injection H as <- ->.
    apply binary64_of_ratio_integer in Hratio as [-> | Hr]; [reflexivity | | lia | lia].
    destruct x as [| p | p]; [lia | apply Hneg; exact Hr | lia].
Qed.

Lemma digits_all (base : Z) (cs : list Z) (acc n v n' : Z) :
  digits base cs acc n = (v, n', []) ->
  Forall (fun c => digit base c <> None) cs /\ (cs = [] -> v = acc).
Proof.
  revert acc n. induction cs as [| c cs IH]; intros acc n H; cbn [digits] in H.
  - injection H as <- _. split; [apply Forall_nil_2 | reflexivity].
  - destruct (digit base c) as [d |] eqn:Hd; [| discriminate].
    destruct (IH _ _ H) as [Hall _]. split; [| discriminate].
    apply Forall_cons. split; [congruence | exact Hall].
Qed.

Lemma decimal_digit_range (c : Z) : digit 10 c <> None -> 48 <= c <= 57.
Proof.
  unfold digit. intros H.
  destruct ((48 <=? c) && (c <=? 57)) eqn:E; [lia |].
  exfalso. apply H.
  destruct ((97 <=? c) && (c <=? 102)) eqn:E1.
  { replace (c - 87 <? 10) with false by lia. reflexivity. }
  destruct ((65 <=? c) && (c <=? 70)) eqn:E2.
  { replace (c - 55 <? 10) with false by lia. reflexivity. }
  reflexivity.
Qed.

(** A byte from ['+'] to ['9'] starts no white space, read from either end. *)
Lemma strip_any_white_space (c : Z) (cs : list Z) :
  43 <= c <= 57 ->
  strip_any white_space (c :: cs) = None /\
  strip_any (map (@rev Z) white_space) (c :: cs) = None.
Proof.
  intros Hc. unfold white_space. cbn [map rev app strip_any strip_prefix].
  repeat match goal with
         | |- context [?k =? c] => replace (k =? c) with false by lia
         end.
  split; reflexivity.
Qed.

Lemma trim_start_head (ws : list (list Z)) (fuel : nat) (c : Z) (cs : list Z) :
  strip_any ws (c :: cs) = None -> trim_start ws fuel (c :: cs) = c :: cs.
Proof. intros H. destruct fuel; cbn [trim_start]; [reflexivity |]. rewrite H. reflexivity. Qed.

(** A run of sign and decimal digits that ends in a digit is not trimmed. *)
Lemma trim_plain (cs : list Z) :
  cs <> [] -> Forall (fun c => 43 <= c <= 57) cs -> trim cs = cs.
Proof.
  intros Hne Hall. unfold trim.
  destruct cs as [| c cs']; [contradiction |].
  assert (Hc : 43 <= c <= 57) by (apply Forall_cons in Hall; tauto).
  rewrite (trim_start_head _ _ _ _ (proj1 (strip_any_white_space c cs' Hc))).
  destruct (rev (c :: cs')) as [| d ds] eqn:Hrev.
  { apply (f_equal (@rev Z)) in Hrev. rewrite rev_involutive in Hrev. discriminate. }
  assert (Hd : 43 <= d <= 57).
  { rewrite Forall_forall in Hall. apply Hall. apply list_elem_of_In, in_rev.
    rewrite Hrev. left. reflexivity. }
  rewrite (trim_start_head _ _ _ _ (proj2 (strip_any_white_space d ds Hd))).
  rewrite <- Hrev. apply rev_involutive.
Qed.

Lemma sign_of_cases (cs : list Z) (neg : bool) (r : list Z) :
  sign_of cs = (neg, r) ->
  (cs = 43 :: r /\ neg = false) \/ (cs = 45 :: r /\ neg = true) \/ (cs = r /\ neg = false).
Proof.
  unfold sign_of. intros H.
  destruct cs as [| c cs']; [injection H as <- <-; auto |].
  destruct (decide (c = 43)) as [-> | H43]; [injection H as <- <-; auto |].
  destruct (decide (c = 45)) as [-> | H45]; [injection H as <- <-; auto |].
  right. right.
  destruct c as [| p | p]; try (injection H as <- <-; auto).
  repeat (destruct p as [p | p |]; try (injection H as <- <-; auto); try contradiction).
Qed.

(** The literal of an integer: optional sign and decimal digits. *)
Lemma StringToNumber_integer (s : string) (neg : bool) (r : list Z) (v n : Z) :
  sign_of (bytes_of s) = (neg, r) ->
  digits 10 r 0 0 = (v, n, []) ->
  (0 <? n) = true ->
  StringToNumber s = binary64 (of_Z (signed neg v)).
Proof.
  intros Hsign Hdigits Hn.
  destruct (digits_all _ _ _ _ _ _ Hdigits) as [Hall Hnil].
  assert (Hr : r <> []).
  { intros ->. cbn [digits] in Hdigits. injection Hdigits as _ <-. discriminate. }
  assert (Hrange : Forall (fun c => 48 <= c <= 57) r).
  { eapply Forall_impl; [exact Hall |]. intros c. apply decimal_digit_range. }
  assert (Hbytes : bytes_of s <> [] /\ Forall (fun c => 43 <= c <= 57) (bytes_of s)).
  { destruct (sign_of_cases _ _ _ Hsign) as [[-> _] | [[-> _] | [-> _]]].
    - split; [discriminate |]. apply Forall_cons. split; [lia |].
      eapply Forall_impl; [exact Hrange |]. cbn beta. intros c Hc. lia.
    - split; [discriminate |]. apply Forall_cons. split; [lia |].
      eapply Forall_impl; [exact Hrange |]. cbn beta. intros c Hc. lia.
    - split; [exact Hr |]. eapply Forall_impl; [exact Hrange |]. cbn beta. intros c Hc. lia. }
  unfold StringToNumber. rewrite (trim_plain _ (proj1 Hbytes) (proj2 Hbytes)).
  destruct (bytes_of s) as [| c0 cs0] eqn:Hcs; [destruct Hbytes; contradiction |].
  assert (Hradix : radix_prefix (c0 :: cs0) = None).
  { unfold radix_prefix. destruct cs0 as [| c1 cs1]; [reflexivity |].
    assert (Hc1 : 43 <= c1 <= 57).
    { destruct Hbytes as [_ Hb]. apply Forall_cons in Hb as [_ Hb].
      apply Forall_cons in Hb as [Hb _]. exact Hb. }
    destruct (c0 =? 48); [| reflexivity].
    replace (c1 =? 120) with false by lia. replace (c1 =? 88) with false by lia.
    replace (c1 =? 111) with false by lia. replace (c1 =? 79) with false by lia.
    replace (c1 =? 98) with false by lia. replace (c1 =? 66) with false by lia.
    reflexivity. }
  rewrite Hradix, Hsign.
  destruct (decide (r = bytes_of "Infinity")) as [-> | _].
  { vm_compute in Hdigits. discriminate. }
  unfold unsigned_decimal. rewrite Hdigits. cbn iota beta.
  replace (0 <? n + 0) with true by lia. cbn [exponent_part].
  unfold scale10. change (0 - 0) with 0. change (0 <=? 0) with true. cbn iota.
  replace ((v * 10 ^ 0 + 0) * 10 ^ 0) with v by (rewrite Z.pow_0_r; lia).
  destruct neg; reflexivity.
Qed.

Lemma int_of_numbers_agree (v : JsValue) (z : Z) :
  Store.int_of v = Some z -> numbers_differ (JInt z) v = Some false.
Proof.
  intros Hint.
  assert (Hgoal : Number v = Some (binary64 (of_Z z))).
  { destruct v as [| | b | n | s | s |]; cbn [Store.int_of] in Hint; try discriminate.
    - cbn [Number]. f_equal.
      destruct (binary64 n) as [| | | [a d]] eqn:Hn; try discriminate.
      cbn [Qnum Qden] in Hint.
      destruct (Z.pos d =? 1) eqn:Hd; [| discriminate]. injection Hint as ->.
      apply Z.eqb_eq in Hd. injection Hd as ->.
      symmetry. exact (binary64_integer_fixed n z Hn).
    - cbn [Number]. f_equal.
      destruct (sign_of (bytes_of s)) as [neg r] eqn:Hsign.
      destruct (digits 10 r 0 0) as [[x n] rest] eqn:Hdigits.
      destruct rest; [| discriminate].
      destruct (0 <? n) eqn:Hn; [| discriminate]. injection Hint as <-.
      exact (StringToNumber_integer s neg r x n Hsign Hdigits Hn). }
  unfold numbers_differ, number_neq. rewrite Hgoal. cbn [Number JInt].
  rewrite number_eq_refl by apply binary64_not_NaN. reflexivity.
Qed.





Section Properties.

Context {B : Bcrypt}.

Lemma with_libros_same (w : World) : with_libros w (libros w) = w.
Proof. destruct w; reflexivity. Qed.

Lemma run_try_await {A X} (catch : Error -> A) (op : Op X) (k : X -> Async A) (w : World) :
  run (try_await catch op k) w =
  match exec op w with
  | (inl e, w') => (catch e, w')
  | (inr x, w') => run (k x) w'
  end.
Proof. simpl. destruct (exec op w) as [[e | x] w']; reflexivity. Qed.

(** A labelled step is what [run] takes when the operation settles that way. *)
Lemma run_resumes {A X} (p p' : Async A) (op : Op X) (r : Result X) (w w' : World) :
  resumes p op r p' -> exec op w = (r, w') -> run p w = run p' w'.
Proof. intros Hstep Hexec. destruct Hstep. simpl. rewrite Hexec. reflexivity. Qed.

Lemma filter_nil_map_id {T} (P : T -> bool) (f : T -> T) (l : list T) :
  List.filter P l = [] -> map (fun x => if P x then f x else x) l = l.
Proof.
  induction l as [| x l IH]; simpl; [reflexivity |].
  destruct (P x); [discriminate |]. intros H. f_equal. exact (IH H).
Qed.

Lemma select_usuario_id_nil (id : JsValue) (w : World) :
  Store.select_usuario_id id w = [] ->
  List.filter (fun l => Store.int_eq (libro_id l) id) (libros w) = [].
Proof.
  unfold Store.select_usuario_id.
  destruct (List.filter _ (libros w)); [reflexivity | discriminate].
Qed.

(** What the UPDATE of a request does to the store when it is accepted. *)
Lemma execute_update_inv (t a y : JsValue) (id : string) (w w' : World) (h : ResultSetHeader) :
  Store.execute UPDATE_libros [t; a; y; JString id] w = (inr h, w') ->
  exists (titulo autor : string) (anio : option Z),
    Store.text_value t = inr (Some titulo) /\
    Store.text_value a = inr (Some autor) /\
    Store.int_value y = inr anio /\
    (h, w') = Store.update_libros titulo autor anio (JString id) w.
Proof.
  simpl.
  destruct (Store.text_value t) as [e | [titulo |]]; simpl; try discriminate.
  destruct (Store.text_value a) as [e | [autor |]]; simpl; try discriminate.
  destruct (Store.int_value y) as [e | anio]; simpl; try discriminate.
  intros H. injection H as <- <-. exists titulo, autor, anio. repeat split.
Qed.

(** The tail of an update whose body carries a title and an author as text
    and a year the store takes: the UPDATE is executed and 200 answered. *)
Lemma run_actualizar_update_typed (id : string) (body : JsObject) (w : World)
    (titulo autor : string) (anio : option Z) :
  prop body "titulo" = JString titulo ->
  prop body "autor" = JString autor ->
  Store.int_value (prop body "anio") = inr anio ->
  run (actualizar_update id body) w =
    (res_json (mensaje "Libro actualizado"),
     snd (Store.update_libros titulo autor anio (JString id) w)).
Proof.
  intros Ht Ha Hy. unfold actualizar_update. rewrite run_try_await.
  cbn [exec Store.execute]. rewrite Ht, Ha, Hy. reflexivity.
Qed.

(** C1 (amended): an update whose body has no usuarioId awaits the UPDATE
    first, without any read of the stored owner, and answers 200 once the
    store has executed it, whatever the store holds; when no book has that id
    the UPDATE affects no row, leaves the store as it was, and the answer is
    still 200.  The store executes the UPDATE of every body that carries a
    title and an author as text and a year it takes; an UPDATE that is
    rejected is answered 500. *)
Theorem update_without_owner_bypasses_guard (id : string) (body : JsObject) (w : World) :
  body !! "usuarioId" = None ->
  let update :=
    query UPDATE_libros [prop body "titulo"; prop body "autor"; prop body "anio"; JString id] in
  let updated := res_json (mensaje "Libro actualizado") in
  (forall r, resumes (actualizar id body) update r
     (match r with
      | inl _ => Return (status_json 500 (mensaje "Error al actualizar libro"))
      | inr _ => Return updated
      end)) /\
  (forall h w', exec update w = (inr h, w') ->
     run (actualizar id body) w = (updated, w') /\ status updated = 200) /\
  (forall h w', Store.select_usuario_id (JString id) w = [] ->
     exec update w = (inr h, w') ->
     affectedRows h = 0 /\ w' = w /\ run (actualizar id body) w = (updated, w)) /\
  (forall titulo autor anio,
     prop body "titulo" = JString titulo ->
     prop body "autor" = JString autor ->
     Store.int_value (prop body "anio") = inr anio ->
     run (actualizar id body) w =
       (updated, snd (Store.update_libros titulo autor anio (JString id) w))) /\
  (forall e w', exec update w = (inl e, w') ->
     run (actualizar id body) w =
       (status_json 500 (mensaje "Error al actualizar libro"), w')).
Proof.
  intros Habsent update updated.
  assert (Hact : actualizar id body = actualizar_update id body).
  { unfold actualizar, prop. rewrite Habsent. reflexivity. }
  assert (Hrun : forall h w', exec update w = (inr h, w') ->
                   run (actualizar id body) w = (updated, w')).
  { intros h w' Hex. rewrite Hact. unfold actualizar_update.
    rewrite run_try_await. fold update. rewrite Hex. reflexivity. }
  split; [| split; [| split; [| split]]]; cycle 3.
  { intros t a y Ht Ha Hy. rewrite Hact. apply run_actualizar_update_typed; assumption. }
  { intros e w' Hex. rewrite Hact. unfold actualizar_update.
    rewrite run_try_await. fold update. rewrite Hex. reflexivity. }
  - intros r. rewrite Hact. unfold actualizar_update, try_await. fold update.
    exact (resumes_await _ update _ r).
  - intros h w' Hex. split; [exact (Hrun h w' Hex) | reflexivity].
  - intros h w' Hnone Hex.
    pose proof (Hrun h w' Hex) as Hr.
    apply execute_update_inv in Hex as (t & a & y & _ & _ & _ & Hup).
    apply select_usuario_id_nil in Hnone.
    unfold Store.update_libros in Hup. rewrite Hnone in Hup.
    rewrite (filter_nil_map_id _ _ _ Hnone), with_libros_same in Hup.
    injection Hup as -> ->. repeat split. exact Hr.
Qed.

Lemma exec_select_usuario_id (id : string) (w : World) :
  exec (query SELECT_usuario_id_FROM_libros [JString id]) w =
  (inr (Store.select_usuario_id (JString id) w), w).
Proof. reflexivity. Qed.

Lemma exec_delete (id : string) (w : World) :
  exec (query DELETE_FROM_libros [JString id]) w =
  (inr (fst (Store.delete_libros (JString id) w)), snd (Store.delete_libros (JString id) w)).
Proof. reflexivity. Qed.

Section Eliminar.

Variables (id : string) (body : JsObject) (w : World).

Let claimed := prop body "usuarioId".
Let found := Store.select_usuario_id (JString id) w.

Lemma run_eliminar_missing :
  truthy claimed = false ->
  run (eliminar id body) w =
    (status_json 400 (mensaje "Se requiere usuarioId para eliminar"), w).
Proof. intros Hfalsy. unfold eliminar. fold claimed. rewrite Hfalsy. reflexivity. Qed.

Lemma run_eliminar_not_found :
  truthy claimed = true -> found = [] ->
  run (eliminar id body) w = (status_json 404 (mensaje "Libro no encontrado"), w).
Proof.
  intros Htruthy Hnone. unfold eliminar. fold claimed. rewrite Htruthy.
  cbn [negb]. rewrite run_try_await, exec_select_usuario_id.
  fold found. rewrite Hnone. reflexivity.
Qed.

Lemma run_eliminar_denied (row : JsObject) (rest : list JsObject) :
  truthy claimed = true -> found = row :: rest ->
  numbers_differ (prop row "usuario_id") claimed = Some true ->
  run (eliminar id body) w =
    (status_json 403 (mensaje "No autorizado para eliminar este libro"), w).
Proof.
  intros Htruthy Hfound Hneq. unfold eliminar. fold claimed. rewrite Htruthy.
  cbn [negb]. rewrite run_try_await, exec_select_usuario_id.
  fold found. rewrite Hfound, Hneq. reflexivity.
Qed.

Lemma run_eliminar_throws (row : JsObject) (rest : list JsObject) :
  truthy claimed = true -> found = row :: rest ->
  numbers_differ (prop row "usuario_id") claimed = None ->
  run (eliminar id body) w = (status_json 500 (mensaje "Error al eliminar libro"), w).
Proof.
  intros Htruthy Hfound Hthrows. unfold eliminar. fold claimed. rewrite Htruthy.
  cbn [negb]. rewrite run_try_await, exec_select_usuario_id.
  fold found. rewrite Hfound, Hthrows. reflexivity.
Qed.

Lemma run_eliminar_allowed (row : JsObject) (rest : list JsObject) :
  truthy claimed = true -> found = row :: rest ->
  numbers_differ (prop row "usuario_id") claimed = Some false ->
  run (eliminar id body) w =
    (res_json (mensaje "Libro eliminado"),
     with_libros w
       (List.filter (fun l => negb (Store.int_eq (libro_id l) (JString id))) (libros w))).
Proof.
  intros Htruthy Hfound Heq. unfold eliminar. fold claimed. rewrite Htruthy.
  cbn [negb]. rewrite run_try_await, exec_select_usuario_id.
  fold found. rewrite Hfound, Heq.
  unfold eliminar_delete. rewrite run_try_await, exec_delete. reflexivity.
Qed.

End Eliminar.

(** C3 (amended): a delete without usuarioId answers 400 whatever the store
    holds; with one, it answers 404 when no book has that id, 403 when the
    stored owner of the book and the claimed one coerce to different numbers,
    500 when the claimed one cannot be coerced to a number, and only when the
    two numbers agree deletes the rows with that id and answers 200.  The
    store is left as it was in the first four cases. *)
Theorem delete_responses (id : string) (body : JsObject) (w : World) :
  let claimed := prop body "usuarioId" in
  let found := Store.select_usuario_id (JString id) w in
  (body !! "usuarioId" = None ->
     run (eliminar id body) w =
       (status_json 400 (mensaje "Se requiere usuarioId para eliminar"), w)) /\
  (truthy claimed = true -> found = [] ->
     run (eliminar id body) w = (status_json 404 (mensaje "Libro no encontrado"), w)) /\
  (forall row rest, truthy claimed = true -> found = row :: rest ->
     numbers_differ (prop row "usuario_id") claimed = Some true ->
     run (eliminar id body) w =
       (status_json 403 (mensaje "No autorizado para eliminar este libro"), w)) /\
  (forall row rest, truthy claimed = true -> found = row :: rest ->
     numbers_differ (prop row "usuario_id") claimed = None ->
     run (eliminar id body) w =
       (status_json 500 (mensaje "Error al eliminar libro"), w)) /\
  (forall row rest, truthy claimed = true -> found = row :: rest ->
     numbers_differ (prop row "usuario_id") claimed = Some false ->
     run (eliminar id body) w =
       (res_json (mensaje "Libro eliminado"),
        with_libros w
          (List.filter (fun l => negb (Store.int_eq (libro_id l) (JString id))) (libros w)))).
Proof.
  intros claimed found. split; [| split; [| split; [| split]]].
  - intros Habsent. apply run_eliminar_missing. unfold prop. rewrite Habsent. reflexivity.
  - apply run_eliminar_not_found.
  - apply run_eliminar_denied.
  - apply run_eliminar_throws.
  - apply run_eliminar_allowed.
Qed.

Lemma execute_update_error (t a y : JsValue) (id : string) (w w' : World) (e : Error) :
  Store.execute UPDATE_libros [t; a; y; JString id] w = (inl e, w') -> w' = w.
Proof.
  simpl.
  destruct (Store.text_value t) as [e1 | [titulo |]]; simpl;
    try (intros H; injection H as _ <-; reflexivity).
  destruct (Store.text_value a) as [e2 | [autor |]]; simpl;
    try (intros H; injection H as _ <-; reflexivity).
  destruct (Store.int_value y) as [e3 | anio]; simpl;
    try (intros H; injection H as _ <-; reflexivity).
  discriminate.
Qed.

(** The two ways the tail of an update ends. *)
Lemma run_actualizar_update (id : string) (body : JsObject) (w : World) :
  (run (actualizar_update id body) w =
     (status_json 500 (mensaje "Error al actualizar libro"), w)) \/
  (exists (titulo autor : string) (anio : option Z),
     Store.text_value (prop body "titulo") = inr (Some titulo) /\
     Store.text_value (prop body "autor") = inr (Some autor) /\
     Store.int_value (prop body "anio") = inr anio /\
     run (actualizar_update id body) w =
       (res_json (mensaje "Libro actualizado"),
        snd (Store.update_libros titulo autor anio (JString id) w))).
Proof.
  unfold actualizar_update. rewrite run_try_await.
  destruct (exec _ w) as [[e | h] w'] eqn:Hex.
  - left. apply execute_update_error in Hex. subst w'. reflexivity.
  - right. apply execute_update_inv in Hex as (t & a & y & Ht & Ha & Hy & Hup).
    exists t, a, y. rewrite <- Hup. repeat split; assumption.
Qed.

(** The ways an update ends: without touching the store, or through the
    UPDATE of its tail. *)
Lemma run_actualizar (id : string) (body : JsObject) (w : World) :
  (snd (run (actualizar id body) w) = w /\ status (fst (run (actualizar id body) w)) <> 200) \/
  run (actualizar id body) w = run (actualizar_update id body) w.
Proof.
  unfold actualizar. destruct (truthy (prop body "usuarioId")); [| right; reflexivity].
  rewrite run_try_await, exec_select_usuario_id.
  destruct (Store.select_usuario_id (JString id) w) as [| row rest].
  - left. split; [reflexivity | discriminate].
  - destruct (numbers_differ _ _) as [[|] |].
    + left. split; [reflexivity | discriminate].
    + right. reflexivity.
    + left. split; [reflexivity | discriminate].
Qed.

Lemma update_libros_ids (t a : string) (y : option Z) (id : JsValue) (ls : list Libro) :
  map libro_id
    (map (fun l => if Store.int_eq (libro_id l) id then Store.set_libro t a y l else l) ls) =
  map libro_id ls.
Proof.
  induction ls as [| l ls IH]; simpl; [reflexivity |].
  rewrite IH. destruct (Store.int_eq (libro_id l) id); reflexivity.
Qed.

Lemma update_libros_owners (t a : string) (y : option Z) (id : JsValue) (ls : list Libro) :
  map libro_usuario_id
    (map (fun l => if Store.int_eq (libro_id l) id then Store.set_libro t a y l else l) ls) =
  map libro_usuario_id ls.
Proof.
  induction ls as [| l ls IH]; simpl; [reflexivity |].
  rewrite IH. destruct (Store.int_eq (libro_id l) id); reflexivity.
Qed.

Lemma update_libros_others (t a : string) (y : option Z) (id : JsValue) (ls : list Libro)
    (i : nat) (l : Libro) :
  ls !! i = Some l -> Store.int_eq (libro_id l) id = false ->
  map (fun l => if Store.int_eq (libro_id l) id then Store.set_libro t a y l else l) ls !! i =
  Some l.
Proof.
  intros Hi Hother. rewrite list_lookup_fmap, Hi. simpl. rewrite Hother. reflexivity.
Qed.

(** C8: an update leaves the users alone and keeps, row by row, the id and
    the stored owner of every book, whatever the body carries; a book with
    another id is left as it was; and when the update answers 200, the books
    with the requested id have taken the title, author and year bound from
    the body and nothing else has changed. *)
Theorem update_overwrites_only_title_author_year (id : string) (body : JsObject) (w : World) :
  let response := fst (run (actualizar id body) w) in
  let w' := snd (run (actualizar id body) w) in
  let targeted := fun l : Libro => Store.int_eq (libro_id l) (JString id) in
  usuarios w' = usuarios w /\
  map libro_id (libros w') = map libro_id (libros w) /\
  map libro_usuario_id (libros w') = map libro_usuario_id (libros w) /\
  (forall (i : nat) (l : Libro),
     libros w !! i = Some l -> targeted l = false -> libros w' !! i = Some l) /\
  (status response = 200 ->
     exists (titulo autor : string) (anio : option Z),
       Store.text_value (prop body "titulo") = inr (Some titulo) /\
       Store.text_value (prop body "autor") = inr (Some autor) /\
       Store.int_value (prop body "anio") = inr anio /\
       libros w' =
         map (fun l => if targeted l then Store.set_libro titulo autor anio l else l)
             (libros w)).
Proof.
  intros response w' targeted. subst response w'.
  destruct (run_actualizar id body w) as [[Hsame Hstatus] | Htail].
  { rewrite Hsame. repeat split; try reflexivity; try tauto. }
  rewrite Htail.
  destruct (run_actualizar_update id body w) as [Herr | (t & a & y & Ht & Ha & Hy & Hok)].
  { rewrite Herr. simpl. repeat split; try reflexivity; try tauto. discriminate. }
  rewrite Hok. cbn [fst snd Store.update_libros with_libros libros usuarios].
  split; [reflexivity |].
  split; [apply update_libros_ids |].
  split; [apply update_libros_owners |].
  split; [intros i l Hi Hother; apply update_libros_others; assumption |].
  intros _. exists t, a, y. repeat split; assumption.
Qed.

Lemma nonzero_truthy (v : JsValue) (n : JsNumber) :
  Number v = Some n -> nonzero n = true -> truthy v = true.
Proof.
  destruct v as [| | [|] | m | s | s |]; cbn [Number truthy]; intros Hn;
    try discriminate; try reflexivity; injection Hn as <-; try discriminate.
  - exact id.
  - intros Hnonzero. destruct s; [discriminate | reflexivity].
Qed.

Lemma nonzero_neq_zero (n : JsNumber) : nonzero n = true -> number_eq (of_Z 0) n = false.
Proof.
  destruct n as [| | | q]; simpl; try discriminate; try reflexivity.
  intros H. destruct (Qeq_bool (inject_Z 0) q) eqn:E; [| reflexivity].
  apply Qeq_bool_iff in E. symmetry in E. apply Qeq_bool_iff in E.
  change (inject_Z 0) with 0%Q in E. rewrite E in H. discriminate.
Qed.

(** C9 (amended): a usuarioId that is falsy (the number 0 and the empty string are) is
    handled as a missing one: the delete answers 400 and leaves the store as
    it was, whatever books it holds, and the update is its bare tail, with no
    read of the stored owner, answering 200 once the store has executed the
    UPDATE and 500 when the UPDATE is rejected. *)
Theorem falsy_owner_is_treated_as_absent (id : string) (body : JsObject) (w : World) :
  let claimed := prop body "usuarioId" in
  let update :=
    query UPDATE_libros [prop body "titulo"; prop body "autor"; prop body "anio"; JString id] in
  truthy claimed = false ->
  truthy (JInt 0) = false /\ truthy (JString "") = false /\
  run (eliminar id body) w =
    (status_json 400 (mensaje "Se requiere usuarioId para eliminar"), w) /\
  actualizar id body = actualizar_update id body /\
  (forall h w', exec update w = (inr h, w') ->
     run (actualizar id body) w = (res_json (mensaje "Libro actualizado"), w')) /\
  (forall titulo autor anio,
     prop body "titulo" = JString titulo ->
     prop body "autor" = JString autor ->
     Store.int_value (prop body "anio") = inr anio ->
     run (actualizar id body) w =
       (res_json (mensaje "Libro actualizado"),
        snd (Store.update_libros titulo autor anio (JString id) w))) /\
  (forall e w', exec update w = (inl e, w') ->
     run (actualizar id body) w =
       (status_json 500 (mensaje "Error al actualizar libro"), w')).
Proof.
  intros claimed update Hfalsy.
  assert (Hact : actualizar id body = actualizar_update id body).
  { unfold actualizar. fold claimed. rewrite Hfalsy. reflexivity. }
  split; [reflexivity |]. split; [reflexivity |]. split; [| split; [| split; [| split]]].
  - apply run_eliminar_missing. exact Hfalsy.
  - exact Hact.
  - intros h w' Hex. rewrite Hact. unfold actualizar_update.
    rewrite run_try_await. fold update. rewrite Hex. reflexivity.
  - intros t a y Ht Ha Hy. rewrite Hact. apply run_actualizar_update_typed; assumption.
  - intros e w' Hex. rewrite Hact. unfold actualizar_update.
    rewrite run_try_await. fold update. rewrite Hex. reflexivity.
Qed.

(** C10: when the book found has no stored owner, a claimed usuarioId "0"
    passes the guard (the delete removes the rows with that id and answers
    200, the update goes on to its tail), and a claimed value that coerces to
    a number other than zero is answered 403 by both, the store left as it
    was; null and "0" both coerce to zero, and so does a literal too small
    for binary64 such as "1e-400". *)
Theorem ownerless_book_guard (id : string) (body row : JsObject) (rest : list JsObject)
    (w : World) :
  let claimed := prop body "usuarioId" in
  Store.select_usuario_id (JString id) w = row :: rest ->
  prop row "usuario_id" = JNull ->
  (claimed = JString "0" ->
     run (eliminar id body) w =
       (res_json (mensaje "Libro eliminado"),
        with_libros w
          (List.filter (fun l => negb (Store.int_eq (libro_id l) (JString id))) (libros w))) /\
     run (actualizar id body) w = run (actualizar_update id body) w) /\
  (forall n : JsNumber, Number claimed = Some n -> nonzero n = true ->
     run (eliminar id body) w =
       (status_json 403 (mensaje "No autorizado para eliminar este libro"), w) /\
     run (actualizar id body) w =
       (status_json 403 (mensaje "No autorizado para actualizar este libro"), w)) /\
  Number JNull = Some (of_Z 0) /\ Number (JString "0") = Some (of_Z 0) /\
  Number (JString "1e-400") = Some (of_Z 0).
Proof.
  intros claimed Hfound Hnull.
  split; [| split; [| split; [reflexivity | split; [reflexivity | vm_compute; reflexivity]]]].
  - intros Hzero. split.
    + apply (run_eliminar_allowed id body w row rest).
      * fold claimed. rewrite Hzero. reflexivity.
      * exact Hfound.
      * fold claimed. rewrite Hnull, Hzero. reflexivity.
    + unfold actualizar. fold claimed. rewrite Hzero. cbn [truthy String.eqb negb].
      rewrite run_try_await, exec_select_usuario_id, Hfound, Hnull. reflexivity.
  - intros n Hn Hnonzero.
    pose proof (nonzero_truthy _ _ Hn Hnonzero) as Htruthy.
    assert (Hdiffer : numbers_differ JNull claimed = Some true).
    { unfold numbers_differ, number_neq. rewrite Hn. cbn [Number].
      rewrite (nonzero_neq_zero _ Hnonzero). reflexivity. }
    split.
    + apply (run_eliminar_denied id body w row rest).
      * exact Htruthy.
      * exact Hfound.
      * rewrite Hnull. exact Hdiffer.
    + unfold actualizar. fold claimed. rewrite Htruthy.
      rewrite run_try_await, exec_select_usuario_id, Hfound, Hnull, Hdiffer. reflexivity.
Qed.

Lemma truthy_JString (s : string) : s <> "" -> truthy (JString s) = true.
Proof.
  intros Hs. simpl. destruct (String.eqb s "") eqn:E; [| reflexivity].
  apply String.eqb_eq in E. contradiction.
Qed.

Lemma bound_truthy (v : JsValue) : truthy v = true -> Store.bound v = inr v.
Proof. destruct v; cbn [truthy Store.bound]; try discriminate; reflexivity. Qed.

Lemma exec_select_id (correo : JsValue) (w : World) :
  truthy correo = true ->
  exec (query SELECT_id_FROM_usuarios [correo]) w = (inr (Store.select_id correo w), w).
Proof. intros H. simpl. rewrite (bound_truthy _ H). reflexivity. Qed.

Lemma exec_select_usuarios (correo : JsValue) (w : World) :
  truthy correo = true ->
  exec (query SELECT_FROM_usuarios [correo]) w = (inr (Store.select_usuarios correo w), w).
Proof. intros H. simpl. rewrite (bound_truthy _ H). reflexivity. Qed.

Lemma select_id_nil (correo : JsValue) (w : World) :
  Store.select_id correo w = [] ->
  List.filter (fun u => Store.text_eq (usuario_correo u) correo) (usuarios w) = [].
Proof.
  unfold Store.select_id.
  destruct (List.filter _ (usuarios w)); [reflexivity | discriminate].
Qed.

Lemma filter_nil_existsb {T} (P : T -> bool) (l : list T) :
  List.filter P l = [] -> existsb P l = false.
Proof.
  induction l as [| x l IH]; simpl; [reflexivity |].
  destruct (P x); [discriminate | exact IH].
Qed.

Section Registro.

Variables (correo : string) (body : JsObject) (w : World).

Hypothesis body_correo : prop body "correo" = JString correo.
Hypothesis correo_present : correo <> "".
Hypothesis contrasena_present : truthy (prop body "contrasena") = true.

Lemma registro_awaits_check :
  registro body =
  try_await (fun _ => status_json 500 (mensaje "Error en el registro"))
    (query SELECT_id_FROM_usuarios [JString correo])
    (fun existing =>
       if 0 <? Z.of_nat (length existing) then
         Return (status_json 409 (mensaje "El correo ya está registrado"))
       else
         try_await (fun _ => status_json 500 (mensaje "Error en el registro"))
           (bcrypt_hash_op (prop body "contrasena") 10) (fun hash =>
         try_await (fun _ => status_json 500 (mensaje "Error en el registro"))
           (query INSERT_INTO_usuarios
              [JString correo; JString hash; or_else (prop body "nombre") JNull])
           (fun result =>
         Return (res_json (<[ "id" := JValue (JInt (insertId result)) ]>
                             (mensaje "Usuario registrado correctamente")))))).
Proof.
  unfold registro. rewrite body_correo, contrasena_present, (truthy_JString _ correo_present).
  reflexivity.
Qed.

(** A registration of an email the store does not hold yet. *)
Lemma run_registro_fresh (hash : string) (nombre : option string) :
  Store.select_id (JString correo) w = [] ->
  bcrypt_hash (prop body "contrasena") 10 (entropy w) = inr hash ->
  Store.text_value (or_else (prop body "nombre") JNull) = inr nombre ->
  run (registro body) w =
    (res_json (<[ "id" := JValue (JInt (usuarios_auto_increment w)) ]>
                 (mensaje "Usuario registrado correctamente")),
     registered w correo hash nombre).
Proof.
  intros Hfresh Hhash Hnombre. rewrite registro_awaits_check.
  rewrite run_try_await, exec_select_id by (apply truthy_JString; exact correo_present).
  rewrite Hfresh. change (0 <? Z.of_nat (length (@nil JsObject))) with false. cbn iota.
  rewrite run_try_await. cbn [exec]. rewrite Hhash.
  rewrite run_try_await. cbn [exec Store.execute Store.text_value Store.not_null].
  rewrite Hnombre. unfold Store.insert_usuario. cbn [usuarios].
  apply select_id_nil, filter_nil_existsb in Hfresh.
  cbn [Store.text_eq] in Hfresh. rewrite Hfresh. reflexivity.
Qed.

(** A registration of an email the store holds already. *)
Lemma run_registro_taken (u : JsObject) (us : list JsObject) :
  Store.select_id (JString correo) w = u :: us ->
  run (registro body) w = (status_json 409 (mensaje "El correo ya está registrado"), w).
Proof.
  intros Htaken. rewrite registro_awaits_check.
  rewrite run_try_await, exec_select_id by (apply truthy_JString; exact correo_present).
  rewrite Htaken. reflexivity.
Qed.

End Registro.

Lemma filter_app_last {T} (P : T -> bool) (l : list T) (x : T) :
  List.filter P l = [] -> P x = true -> List.filter P (l ++ [x]) = [x].
Proof.
  intros Hl Hx. rewrite List.filter_app, Hl. simpl. rewrite Hx. reflexivity.
Qed.

Lemma select_id_registered (w : World) (correo hash : string) (nombre : option string) :
  Store.select_id (JString correo) w = [] ->
  Store.select_id (JString correo) (registered w correo hash nombre) =
  [ {[ "id" := JInt (usuarios_auto_increment w) ]} ].
Proof.
  intros Hfresh. apply select_id_nil in Hfresh.
  unfold Store.select_id, registered. cbn [usuarios].
  rewrite (filter_app_last _ _ _ Hfresh); [reflexivity |].
  simpl. apply String.eqb_refl.
Qed.

Lemma text_value_Some (v : JsValue) (s : string) :
  Store.text_value v = inr (Some s) -> v = JString s.
Proof. destruct v; simpl; intros H; try discriminate. injection H as <-. reflexivity. Qed.

(** The two ways a registration ends: without a new user, or with the one
    the INSERT appended. *)
Lemma run_registro_cases (body : JsObject) (w : World) :
  let r := run (registro body) w in
  (status (fst r) <> 200 /\ libros (snd r) = libros w /\ usuarios (snd r) = usuarios w /\
   usuarios_auto_increment (snd r) = usuarios_auto_increment w) \/
  (exists (c h : string) (n : option string),
     prop body "correo" = JString c /\ c <> "" /\
     bcrypt_hash (prop body "contrasena") 10 (entropy w) = inr h /\
     Store.text_value (or_else (prop body "nombre") JNull) = inr n /\
     Store.select_id (JString c) w = [] /\
     r = (res_json (<[ "id" := JValue (JInt (usuarios_auto_increment w)) ]>
                      (mensaje "Usuario registrado correctamente")),
          registered w c h n)).
Proof.
  intros r. subst r. unfold registro.
  destruct (truthy (prop body "correo")) eqn:Hc; cbn [negb orb];
    [| left; repeat split; discriminate].
  destruct (truthy (prop body "contrasena")) eqn:Hp; cbn [negb];
    [| left; repeat split; discriminate].
  rewrite run_try_await, (exec_select_id _ _ Hc).
  destruct (Store.select_id (prop body "correo") w) as [| u us] eqn:Hfresh;
    [| left; repeat split; discriminate].
  change (0 <? Z.of_nat (length (@nil JsObject))) with false. cbn iota.
  rewrite run_try_await. cbn [exec].
  destruct (bcrypt_hash (prop body "contrasena") 10 (entropy w)) as [e | h] eqn:Hhash;
    [left; repeat split; discriminate |].
  rewrite run_try_await. cbn [exec Store.execute].
  destruct (Store.text_value (prop body "correo")) as [e | [c |]] eqn:Hcorreo;
    cbn [Store.not_null Store.text_value]; try (left; repeat split; discriminate).
  destruct (Store.text_value (or_else (prop body "nombre") JNull)) as [e | n] eqn:Hn;
    try (left; repeat split; discriminate).
  apply text_value_Some in Hcorreo. rewrite Hcorreo in Hfresh.
  unfold Store.insert_usuario. cbn [usuarios].
  pose proof (filter_nil_existsb _ _ (select_id_nil _ _ Hfresh)) as Hnew.
  cbn [Store.text_eq] in Hnew. rewrite Hnew.
  right. exists c, h, n. rewrite Hcorreo in Hc.
  split; [exact Hcorreo |]. split; [intros ->; discriminate |].
  repeat split; assumption.
Qed.

(** C4 (amended): of two registrations with the same email, the second with
    a password, whenever the first answers 200 it carries the generated id
    and has appended one user, and the second answers 409 and leaves the
    store, and so the users, as the first left them.  The first answers 200
    when no user has that email, bcrypt.hash resolves for its password and
    its name is text or falsy; it answers 500 when bcrypt.hash rejects. *)
Theorem register_same_email_twice (body1 body2 : JsObject) (w : World) :
  prop body2 "correo" = prop body1 "correo" ->
  truthy (prop body2 "contrasena") = true ->
  let first := fst (run (registro body1) w) in
  let w1 := snd (run (registro body1) w) in
  (status first = 200 ->
     json first !! "id" = Some (JValue (JInt (usuarios_auto_increment w))) /\
     (exists (correo hash : string) (nombre : option string),
        prop body1 "correo" = JString correo /\
        usuarios w1 =
          (usuarios w ++
             [ {| usuario_id := usuarios_auto_increment w; usuario_correo := correo;
                  usuario_contrasena := hash; usuario_nombre := nombre |} ])%list) /\
     run (registro body2) w1 =
       (status_json 409 (mensaje "El correo ya está registrado"), w1)) /\
  (forall (correo hash : string) (nombre : option string),
     prop body1 "correo" = JString correo -> correo <> "" ->
     truthy (prop body1 "contrasena") = true ->
     Store.select_id (JString correo) w = [] ->
     bcrypt_hash (prop body1 "contrasena") 10 (entropy w) = inr hash ->
     Store.text_value (or_else (prop body1 "nombre") JNull) = inr nombre ->
     status first = 200) /\
  (forall (correo : string) (e : Error),
     prop body1 "correo" = JString correo -> correo <> "" ->
     truthy (prop body1 "contrasena") = true ->
     Store.select_id (JString correo) w = [] ->
     bcrypt_hash (prop body1 "contrasena") 10 (entropy w) = inl e ->
     first = status_json 500 (mensaje "Error en el registro")).
Proof.
  intros Hsame Hp2 first w1. subst first w1. split; [| split].
  - intros Hok.
    destruct (run_registro_cases body1 w)
      as [(Hstatus & _) | (c & h & n & Hc & Hpresent & _ & _ & Hfresh & Hrun)];
      [contradiction |].
    rewrite Hrun. cbn [fst snd].
    split; [cbn [json res_json status_json]; apply lookup_insert_eq |].
    split; [exists c, h, n; split; [exact Hc | reflexivity] |].
    rewrite Hc in Hsame.
    eapply (run_registro_taken c body2 _ Hsame Hpresent Hp2).
    apply select_id_registered. exact Hfresh.
  - intros correo hash nombre Hc Hpresent Hp1 Hfresh Hhash Hnombre.
    rewrite (run_registro_fresh correo body1 w Hc Hpresent Hp1 hash nombre Hfresh Hhash Hnombre).
    reflexivity.
  - intros correo e Hc Hpresent Hp1 Hfresh Hhash.
    rewrite (registro_awaits_check correo body1 Hc Hpresent Hp1).
    rewrite run_try_await, exec_select_id by (apply truthy_JString; exact Hpresent).
    rewrite Hfresh. change (0 <? Z.of_nat (length (@nil JsObject))) with false. cbn iota.
    rewrite run_try_await. cbn [exec]. rewrite Hhash. reflexivity.
Qed.

(** C5 (amended): when the check by email finds no row and the INSERT that
    follows the hashing is rejected, with a duplicate-key error or any other,
    the registration answers 500 with the message of its catch block. *)
Theorem rejected_insert_answers_500 (body : JsObject) (hash : string) (e : Error) :
  let correo := prop body "correo" in
  let contrasena := prop body "contrasena" in
  let nombre := prop body "nombre" in
  truthy correo = true ->
  truthy contrasena = true ->
  exists hashing inserting : Async Response,
    resumes (registro body) (query SELECT_id_FROM_usuarios [correo]) (inr []) hashing /\
    resumes hashing (bcrypt_hash_op contrasena 10) (inr hash) inserting /\
    resumes inserting
      (query INSERT_INTO_usuarios [correo; JString hash; or_else nombre JNull]) (inl e)
      (Return (status_json 500 (mensaje "Error en el registro"))).
Proof.
  intros correo contrasena nombre Hcorreo Hcontrasena.
  unfold registro. fold correo contrasena nombre. rewrite Hcorreo, Hcontrasena.
  cbn [negb orb]. unfold try_await.
  eexists. eexists. split; [| split].
  - exact (resumes_await _ _ _ (inr [])).
  - change (0 <? Z.of_nat (length (@nil JsObject))) with false. cbn iota.
    exact (resumes_await _ _ _ (inr hash)).
  - cbn beta iota. exact (resumes_await _ _ _ (inl e)).
Qed.

Section Login.

Variables (body : JsObject) (w : World).

Let correo := prop body "correo".
Let contrasena := prop body "contrasena".

Hypothesis correo_present : truthy correo = true.
Hypothesis contrasena_present : truthy contrasena = true.

Lemma run_login_unknown :
  Store.select_usuarios correo w = [] ->
  run (login body) w = (invalid_credentials, w).
Proof.
  intros Hnone. unfold login. fold correo contrasena.
  rewrite correo_present, contrasena_present. cbn [negb orb].
  rewrite run_try_await, (exec_select_usuarios _ _ correo_present), Hnone. reflexivity.
Qed.

Lemma run_login_mismatch (user : JsObject) (rest : list JsObject) :
  Store.select_usuarios correo w = user :: rest ->
  bcrypt_compare contrasena (prop user "contrasena") = inr false ->
  run (login body) w = (invalid_credentials, w).
Proof.
  intros Hfound Hwrong. unfold login. fold correo contrasena.
  rewrite correo_present, contrasena_present. cbn [negb orb].
  rewrite run_try_await, (exec_select_usuarios _ _ correo_present), Hfound.
  rewrite run_try_await. cbn [exec]. rewrite Hwrong. reflexivity.
Qed.

Lemma run_login_rejected (user : JsObject) (rest : list JsObject) (e : Error) :
  Store.select_usuarios correo w = user :: rest ->
  bcrypt_compare contrasena (prop user "contrasena") = inl e ->
  run (login body) w = (status_json 500 (mensaje "Error en el login"), w).
Proof.
  intros Hfound Hrejects. unfold login. fold correo contrasena.
  rewrite correo_present, contrasena_present. cbn [negb orb].
  rewrite run_try_await, (exec_select_usuarios _ _ correo_present), Hfound.
  rewrite run_try_await. cbn [exec]. rewrite Hrejects. reflexivity.
Qed.


End Login.

(** C6 (amended): a login with a registered email whose password
    bcrypt.compare reports as not matching, and a login with an email no user
    has, get the same response: status 401 and the same message.  When
    bcrypt.compare rejects instead, the login with the registered email is
    answered 500 while the other is answered 401. *)
Theorem failed_logins_are_indistinguishable (known unknown : JsObject) (w : World)
    (user : JsObject) (rest : list JsObject) :
  truthy (prop known "correo") = true ->
  truthy (prop known "contrasena") = true ->
  truthy (prop unknown "correo") = true ->
  truthy (prop unknown "contrasena") = true ->
  Store.select_usuarios (prop known "correo") w = user :: rest ->
  Store.select_usuarios (prop unknown "correo") w = [] ->
  (bcrypt_compare (prop known "contrasena") (prop user "contrasena") = inr false ->
     fst (run (login known) w) = fst (run (login unknown) w) /\
     status (fst (run (login known) w)) = 401 /\
     json (fst (run (login known) w)) = mensaje "Correo o contraseña incorrectos" /\
     json (fst (run (login unknown) w)) = mensaje "Correo o contraseña incorrectos") /\
  (forall e : Error,
     bcrypt_compare (prop known "contrasena") (prop user "contrasena") = inl e ->
     fst (run (login known) w) = status_json 500 (mensaje "Error en el login") /\
     fst (run (login unknown) w) =
       status_json 401 (mensaje "Correo o contraseña incorrectos")).
Proof.
  intros Hc1 Hp1 Hc2 Hp2 Hfound Hnone.
  rewrite (run_login_unknown unknown w Hc2 Hp2 Hnone). split.
  - intros Hwrong. rewrite (run_login_mismatch known w Hc1 Hp1 user rest Hfound Hwrong).
    repeat split.
  - intros e Hrejects. rewrite (run_login_rejected known w Hc1 Hp1 user rest e Hfound Hrejects).
    split; reflexivity.
Qed.





End Properties.



Lemma update_without_owner_bypasses_guard_witness :
  run (B := salted_bcrypt) (actualizar "1" edition) library =
    (res_json (mensaje "Libro actualizado"),
     with_libros library
       [Store.set_libro "El Quijote" "Miguel de Cervantes" (Some 1615) quijote;
        lazarillo; celestina]).
Proof.
  exact (proj1 (proj2 (proj2 (proj2
    (update_without_owner_bypasses_guard (B := salted_bcrypt) "1" edition library eq_refl))))
    "El Quijote" "Miguel de Cervantes" (Some 1615) eq_refl eq_refl eq_refl).
Defined.

Lemma delete_responses_witness :
  run (B := salted_bcrypt) (eliminar "1" {[ "usuarioId" := JString "5" ]}) library =
    (res_json (mensaje "Libro eliminado"), with_libros library [lazarillo; celestina]) /\
  run (B := salted_bcrypt) (eliminar "1" {[ "usuarioId" := JInt 6 ]}) library =
    (status_json 403 (mensaje "No autorizado para eliminar este libro"), library) /\
  run (B := salted_bcrypt) (eliminar "9" {[ "usuarioId" := JInt 6 ]}) library =
    (status_json 404 (mensaje "Libro no encontrado"), library) /\
  run (B := salted_bcrypt) (eliminar "2" ∅) library =
    (status_json 400 (mensaje "Se requiere usuarioId para eliminar"), library).
Proof.
  split; [| split; [| split]].
  - exact (proj2 (proj2 (proj2 (proj2
      (delete_responses (B := salted_bcrypt) "1" {[ "usuarioId" := JString "5" ]} library))))
      _ _ eq_refl eq_refl eq_refl).
  - exact (proj1 (proj2 (proj2
      (delete_responses (B := salted_bcrypt) "1" {[ "usuarioId" := JInt 6 ]} library)))
      _ _ eq_refl eq_refl eq_refl).
  - exact (proj1 (proj2
      (delete_responses (B := salted_bcrypt) "9" {[ "usuarioId" := JInt 6 ]} library))
      eq_refl eq_refl).
  - exact (proj1 (delete_responses (B := salted_bcrypt) "2" ∅ library) eq_refl).
Defined.

Lemma update_overwrites_only_title_author_year_witness :
  let w' :=
    snd (run (B := salted_bcrypt) (actualizar "1" (<[ "usuarioId" := JString "5" ]> edition))
           library) in
  libros w' =
    [Store.set_libro "El Quijote" "Miguel de Cervantes" (Some 1615) quijote;
     lazarillo; celestina] /\
  map libro_usuario_id (libros w') = [Some 5; None; Some 0].
Proof.
  pose proof (update_overwrites_only_title_author_year (B := salted_bcrypt) "1"
                (<[ "usuarioId" := JString "5" ]> edition) library)
    as (_ & _ & Howners & _ & Hrows).
  split.
  - destruct (Hrows eq_refl) as (t & a & y & Ht & Ha & Hy & Hlibros).
    injection Ht as <-. injection Ha as <-. injection Hy as <-. exact Hlibros.
  - exact Howners.
Defined.

Lemma falsy_owner_is_treated_as_absent_witness :
  run (B := salted_bcrypt) (eliminar "3" {[ "usuarioId" := JInt 0 ]}) library =
    (status_json 400 (mensaje "Se requiere usuarioId para eliminar"), library) /\
  actualizar "3" (<[ "usuarioId" := JString "" ]> edition) =
    actualizar_update "3" (<[ "usuarioId" := JString "" ]> edition).
Proof.
  split.
  - exact (proj1 (proj2 (proj2
      (falsy_owner_is_treated_as_absent (B := salted_bcrypt) "3"
         {[ "usuarioId" := JInt 0 ]} library eq_refl)))).
  - exact (proj1 (proj2 (proj2 (proj2
      (falsy_owner_is_treated_as_absent (B := salted_bcrypt) "3"
         (<[ "usuarioId" := JString "" ]> edition) library eq_refl))))).
Defined.

Lemma ownerless_book_guard_witness :
  run (B := salted_bcrypt) (eliminar "2" {[ "usuarioId" := JString "0" ]}) library =
    (res_json (mensaje "Libro eliminado"), with_libros library [quijote; celestina]) /\
  run (B := salted_bcrypt) (eliminar "2" {[ "usuarioId" := JInt 7 ]}) library =
    (status_json 403 (mensaje "No autorizado para eliminar este libro"), library).
Proof.
  split.
  - exact (proj1 (proj1
      (ownerless_book_guard (B := salted_bcrypt) "2" {[ "usuarioId" := JString "0" ]}
         {[ "usuario_id" := JNull ]} [] library eq_refl eq_refl) eq_refl)).
  - exact (proj1 (proj1 (proj2
      (ownerless_book_guard (B := salted_bcrypt) "2" {[ "usuarioId" := JInt 7 ]}
         {[ "usuario_id" := JNull ]} [] library eq_refl eq_refl)) (of_Z 7) eq_refl eq_refl)).
Defined.

Lemma register_same_email_twice_witness :
  status (fst (run (B := salted_bcrypt) (registro ana) empty_world)) = 200 /\
  run (B := salted_bcrypt) (registro ana_otra_vez)
    (snd (run (B := salted_bcrypt) (registro ana) empty_world)) =
    (status_json 409 (mensaje "El correo ya está registrado"),
     snd (run (B := salted_bcrypt) (registro ana) empty_world)).
Proof.
  pose proof (register_same_email_twice (B := salted_bcrypt) ana ana_otra_vez empty_world
                eq_refl eq_refl) as (Hsecond & Hfirst & _).
  pose proof (Hfirst "ana@example.com" "$secreta" (Some "Ana")
                eq_refl ltac:(discriminate) eq_refl eq_refl eq_refl eq_refl) as Hok.
  split; [exact Hok | exact (proj2 (proj2 (Hsecond Hok)))].
Defined.

Lemma rejected_insert_answers_500_witness :
  exists hashing inserting : Async Response,
    resumes (registro ana) (query SELECT_id_FROM_usuarios [JString "ana@example.com"])
      (inr []) hashing /\
    resumes hashing (bcrypt_hash_op (JString "secreta") 10) (inr "$secreta") inserting /\
    resumes inserting
      (query INSERT_INTO_usuarios [JString "ana@example.com"; JString "$secreta"; JString "Ana"])
      (inl ER_DUP_ENTRY)
      (Return (status_json 500 (mensaje "Error en el registro"))).
Proof.
  exact (rejected_insert_answers_500 ana "$secreta" ER_DUP_ENTRY eq_refl eq_refl).
Defined.

(** C5, as stated, fails: two registrations of one email are in flight; the
    check of the first finds no row, the second then registers, and the INSERT
    of the first is rejected by the unique key.  The first is answered 500,
    not 409. *)
Lemma duplicate_key_at_insert_answers_500 :
  let first := registro ana in
  let second := registro ana_otra_vez in
  let insert :=
    query INSERT_INTO_usuarios [JString "ana@example.com"; JString "%secreta"; JString "Ana"] in
  let '(checked, _, _) :=
    interleave (B := salted_bcrypt) [true] first second empty_world in
  let '(hashed, answered, w) :=
    interleave (B := salted_bcrypt) [false; false; false; true] checked second empty_world in
  exec (B := salted_bcrypt) (query SELECT_id_FROM_usuarios [JString "ana@example.com"])
    empty_world = (inr [], empty_world) /\
  answered =
    Return (res_json (<[ "id" := JValue (JInt 1) ]>
                         (mensaje "Usuario registrado correctamente"))) /\
  exec (B := salted_bcrypt) insert w = (inl ER_DUP_ENTRY, w) /\
  step (B := salted_bcrypt) hashed w =
    (Return (status_json 500 (mensaje "Error en el registro")), w) /\
  status (status_json 500 (mensaje "Error en el registro")) <> 409.
Proof.
  cbv zeta. split; [reflexivity |]. split; [reflexivity |].
  split; [reflexivity |]. split; [reflexivity | discriminate].
Qed.


Lemma failed_logins_are_indistinguishable_witness :
  fst (run (B := salted_bcrypt) (login ana_otra_vez) ana_registered) =
  fst (run (B := salted_bcrypt)
         (login (<[ "correo" := JString "eva@example.com" ]> ana)) ana_registered).
Proof.
  exact (proj1 (proj1 (failed_logins_are_indistinguishable (B := salted_bcrypt)
    ana_otra_vez (<[ "correo" := JString "eva@example.com" ]> ana) ana_registered
    (Store.usuario_row
       {| usuario_id := 1; usuario_correo := "ana@example.com";
          usuario_contrasena := "$secreta"; usuario_nombre := Some "Ana" |}) []
    eq_refl eq_refl eq_refl eq_refl eq_refl eq_refl) eq_refl)).
Defined.


(** C1, as stated, fails: an update with no usuarioId and no titulo is
    rejected when its parameters are bound, and answered 500, not 200. *)
Lemma update_without_title_answers_500 :
  (∅ : JsObject) !! "usuarioId" = None /\
  run (B := salted_bcrypt) (actualizar "1" ∅) library =
    (status_json 500 (mensaje "Error al actualizar libro"), library) /\
  status (fst (run (B := salted_bcrypt) (actualizar "1" ∅) library)) <> 200.
Proof. split; [reflexivity |]. split; [reflexivity | discriminate]. Qed.

(** C9, as stated, fails: an update whose usuarioId is 0 and that has no
    titulo bypasses the guard but is answered 500, not 200. *)
Lemma update_with_owner_zero_answers_500 :
  truthy (prop ({[ "usuarioId" := JInt 0 ]} : JsObject) "usuarioId") = false /\
  actualizar "3" {[ "usuarioId" := JInt 0 ]} = actualizar_update "3" {[ "usuarioId" := JInt 0 ]} /\
  run (B := salted_bcrypt) (actualizar "3" {[ "usuarioId" := JInt 0 ]}) library =
    (status_json 500 (mensaje "Error al actualizar libro"), library) /\
  status (fst (run (B := salted_bcrypt) (actualizar "3" {[ "usuarioId" := JInt 0 ]}) library))
    <> 200.
Proof.
  split; [reflexivity |]. split; [reflexivity |]. split; [reflexivity | discriminate].
Qed.

(** C3, as stated, fails: a delete whose usuarioId is an object that cannot
    be coerced to a number is present and does not match the stored owner of
    the book, yet it is answered 500, not 403. *)
Lemma delete_with_unconvertible_owner_answers_500 :
  let body : JsObject := {[ "usuarioId" := JOpaque ]} in
  truthy (prop body "usuarioId") = true /\
  Store.select_usuario_id (JString "1") library = [ {[ "usuario_id" := JInt 5 ]} ] /\
  numbers_differ (JInt 5) (prop body "usuarioId") = None /\
  run (B := salted_bcrypt) (eliminar "1" body) library =
    (status_json 500 (mensaje "Error al eliminar libro"), library) /\
  status (fst (run (B := salted_bcrypt) (eliminar "1" body) library)) <> 403.
Proof.
  cbv zeta. split; [reflexivity |]. split; [reflexivity |]. split; [reflexivity |].
  split; [reflexivity | discriminate].
Qed.

(** C4, as stated, fails: in a first registration with a fresh email and a
    password that is present but a number, bcrypt.hash rejects and the answer
    is 500, not 200. *)
Lemma registration_with_numeric_password_answers_500 :
  let body : JsObject :=
    <[ "correo" := JString "ana@example.com" ]> {[ "contrasena" := JInt 123 ]} in
  truthy (prop body "correo") = true /\
  truthy (prop body "contrasena") = true /\
  Store.select_id (prop body "correo") empty_world = [] /\
  fst (run (B := salted_bcrypt) (registro body) empty_world) =
    status_json 500 (mensaje "Error en el registro") /\
  status (fst (run (B := salted_bcrypt) (registro body) empty_world)) <> 200.
Proof.
  cbv zeta. split; [reflexivity |]. split; [reflexivity |]. split; [reflexivity |].
  split; [reflexivity | discriminate].
Qed.

(** C6, as stated, fails: with a password that is present but a number,
    bcrypt.compare rejects, so the login with a registered email is answered
    500 while the login with an unknown email is answered 401. *)
Lemma numeric_password_tells_registered_emails :
  let known : JsObject :=
    <[ "correo" := JString "ana@example.com" ]> {[ "contrasena" := JInt 123 ]} in
  let unknown : JsObject :=
    <[ "correo" := JString "eva@example.com" ]> {[ "contrasena" := JInt 123 ]} in
  truthy (prop known "contrasena") = true /\
  Store.select_usuarios (prop known "correo") ana_registered <> [] /\
  Store.select_usuarios (prop unknown "correo") ana_registered = [] /\
  status (fst (run (B := salted_bcrypt) (login known) ana_registered)) = 500 /\
  status (fst (run (B := salted_bcrypt) (login unknown) ana_registered)) = 401 /\
  fst (run (B := salted_bcrypt) (login known) ana_registered) <>
  fst (run (B := salted_bcrypt) (login unknown) ana_registered).
Proof.
  cbv zeta. split; [reflexivity |]. split; [discriminate |]. split; [reflexivity |].
  split; [reflexivity |]. split; [reflexivity | discriminate].
Qed.

(** ** Further properties of the handlers *)

Ltac branch :=
  match goal with
  | |- context [if ?b then _ else _] => destruct b eqn:?
  | |- context [match ?l with [] => _ | _ :: _ => _ end] => destruct l eqn:?
  | |- context [match ?r with inl _ => _ | inr _ => _ end] => destruct r eqn:?
  | |- context [match ?o with Some _ => _ | None => _ end] => destruct o eqn:?
  end.

Ltac settle tac :=
  repeat first
    [ progress cbn [answers guarded try_await]
    | intro
    | split
    | branch
    | solve [tac] ].

Section Outcomes.

Context {B : Bcrypt}.

Lemma answers_run {A} (P : A -> Prop) (p : Async A) :
  answers P p -> forall w, P (fst (run p w)).
Proof.
  induction p as [a | X op k IH]; simpl; intros H w; [exact H |].
  destruct (exec op w) as [r w']. apply IH, H.
Qed.

Lemma guarded_run {A} (r : A) (ok : A -> Prop) (p : Async A) :
  guarded r ok p ->
  forall w,
    match rejection p w with
    | Some _ => fst (run p w) = r
    | None => ok (fst (run p w))
    end.
Proof.
  induction p as [a | X op k IH]; simpl; intros H w; [exact H |].
  destruct H as [Hcatch Hnext].
  destruct (exec op w) as [[e | x] w'].
  - rewrite Hcatch. reflexivity.
  - apply IH, Hnext.
Qed.

End Outcomes.

Ltac member := cbn [status status_json res_json]; rewrite ?elem_of_cons; tauto.

(** X1: whatever the store and bcrypt do, an update answers 200, 403, 404 or
    500, a delete 200, 400, 403, 404 or 500, a registration 200, 400, 409 or
    500, and a login 200, 400, 401 or 500. *)
Theorem handlers_answer_their_statuses (id : string) (body : JsObject) :
  answers (fun r => status r ∈ [200; 403; 404; 500]) (actualizar id body) /\
  answers (fun r => status r ∈ [200; 400; 403; 404; 500]) (eliminar id body) /\
  answers (fun r => status r ∈ [200; 400; 409; 500]) (registro body) /\
  answers (fun r => status r ∈ [200; 400; 401; 500]) (login body).
Proof.
  split; [| split; [| split]].
  - unfold actualizar, actualizar_update. settle member.
  - unfold eliminar, eliminar_delete. settle member.
  - unfold registro. settle member.
  - unfold login. settle member.
Qed.

Ltac caught := first [reflexivity | cbn [status status_json res_json] in *; discriminate].

Section Failures.

Context {B : Bcrypt}.

Lemma rejection_try_await {A X} (catch : Error -> A) (op : Op X) (k : X -> Async A)
    (w : World) :
  rejection (try_await catch op k) w =
  match exec op w with
  | (inl e, _) => Some e
  | (inr x, w') => rejection (k x) w'
  end.
Proof. reflexivity. Qed.

Lemma guarded_run_or {A} (r : A) (ok : A -> Prop) (P : Prop) (p : Async A) (w : World) :
  guarded r ok p ->
  match rejection p w with
  | Some _ => fst (run p w) = r
  | None => ~ ok (fst (run p w)) -> P
  end.
Proof.
  intros H. pose proof (guarded_run r ok p H w) as Hrun.
  destruct (rejection p w); [exact Hrun | intros Hnot; contradiction].
Qed.

(** A row of the read of the stored owner holds a number or null. *)
Lemma select_usuario_id_row (id : JsValue) (w : World) (row : JsObject)
    (rest : list JsObject) :
  Store.select_usuario_id id w = row :: rest ->
  exists x : JsNumber, Number (prop row "usuario_id") = Some x.
Proof.
  unfold Store.select_usuario_id.
  destruct (List.filter _ (libros w)) as [| l ls]; [discriminate |].
  cbn [map]. intros H. injection H as <- _.
  unfold prop. rewrite lookup_singleton_eq. cbn [default].
  destruct (libro_usuario_id l); cbn [Store.js_of_int Number JInt]; eauto.
Qed.

(** X2: in each of the four handlers, when an awaited operation rejects the
    response is the 500 of the handler's catch block, with its message.  When
    none rejects, a registration or a login is not answered 500, and an
    update or a delete is answered 500 only if the claimed usuarioId cannot
    be coerced to a number. *)
Theorem rejection_answers_500 (id : string) (body : JsObject) (w : World) :
  match rejection (actualizar id body) w with
  | Some _ => fst (run (actualizar id body) w) =
                status_json 500 (mensaje "Error al actualizar libro")
  | None => status (fst (run (actualizar id body) w)) = 500 ->
            Number (prop body "usuarioId") = None
  end /\
  match rejection (eliminar id body) w with
  | Some _ => fst (run (eliminar id body) w) =
                status_json 500 (mensaje "Error al eliminar libro")
  | None => status (fst (run (eliminar id body) w)) = 500 ->
            Number (prop body "usuarioId") = None
  end /\
  match rejection (registro body) w with
  | Some _ => fst (run (registro body) w) = status_json 500 (mensaje "Error en el registro")
  | None => status (fst (run (registro body) w)) <> 500
  end /\
  match rejection (login body) w with
  | Some _ => fst (run (login body) w) = status_json 500 (mensaje "Error en el login")
  | None => status (fst (run (login body) w)) <> 500
  end.
Proof.
  assert (Hupdate : forall w0,
            match rejection (actualizar_update id body) w0 with
            | Some _ => fst (run (actualizar_update id body) w0) =
                          status_json 500 (mensaje "Error al actualizar libro")
            | None => status (fst (run (actualizar_update id body) w0)) = 500 ->
                      Number (prop body "usuarioId") = None
            end).
  { intros w0.
    pose proof (guarded_run_or (status_json 500 (mensaje "Error al actualizar libro"))
                  (fun r => status r <> 500)
                  (Number (prop body "usuarioId") = None) (actualizar_update id body) w0) as H.
    destruct (rejection (actualizar_update id body) w0).
    - apply H. unfold actualizar_update. settle caught.
    - intros H500. apply H; [unfold actualizar_update; settle caught |].
      intros Hnot. exact (Hnot H500). }
  assert (Hdelete : forall w0,
            match rejection (eliminar_delete id) w0 with
            | Some _ => fst (run (eliminar_delete id) w0) =
                          status_json 500 (mensaje "Error al eliminar libro")
            | None => status (fst (run (eliminar_delete id) w0)) = 500 ->
                      Number (prop body "usuarioId") = None
            end).
  { intros w0.
    pose proof (guarded_run_or (status_json 500 (mensaje "Error al eliminar libro"))
                  (fun r => status r <> 500)
                  (Number (prop body "usuarioId") = None) (eliminar_delete id) w0) as H.
    destruct (rejection (eliminar_delete id) w0).
    - apply H. unfold eliminar_delete. settle caught.
    - intros H500. apply H; [unfold eliminar_delete; settle caught |].
      intros Hnot. exact (Hnot H500). }
  split; [| split; [| split]].
  - unfold actualizar. destruct (truthy (prop body "usuarioId")); [| apply Hupdate].
    rewrite rejection_try_await, run_try_await, exec_select_usuario_id.
    destruct (Store.select_usuario_id (JString id) w) as [| row rest] eqn:Hfound;
      [cbn; discriminate |].
    destruct (select_usuario_id_row _ _ _ _ Hfound) as [x Hx].
    unfold numbers_differ. rewrite Hx.
    destruct (Number (prop body "usuarioId")) as [c |]; [| cbn; reflexivity].
    destruct (number_neq x c); [cbn; discriminate | apply Hupdate].
  - unfold eliminar. destruct (truthy (prop body "usuarioId")); cbn [negb];
      [| cbn; discriminate].
    rewrite rejection_try_await, run_try_await, exec_select_usuario_id.
    destruct (Store.select_usuario_id (JString id) w) as [| row rest] eqn:Hfound;
      [cbn; discriminate |].
    destruct (select_usuario_id_row _ _ _ _ Hfound) as [x Hx].
    unfold numbers_differ. rewrite Hx.
    destruct (Number (prop body "usuarioId")) as [c |]; [| cbn; reflexivity].
    destruct (number_neq x c); [cbn; discriminate | apply Hdelete].
  - apply (guarded_run _ (fun r => status r <> 500)).
    unfold registro. settle caught.
  - apply (guarded_run _ (fun r => status r <> 500)).
    unfold login. settle caught.
Qed.

End Failures.

(** X3: whatever the store returns and bcrypt decides, a row object that a
    login response carries has no contrasena property. *)
Theorem login_never_returns_the_hash (body : JsObject) :
  answers
    (fun r => forall (k : string) (o : JsObject),
       json r !! k = Some (JRecord o) -> o !! "contrasena" = None)
    (login body).
Proof.
  assert (Hmensaje : forall (text k : string) (o : JsObject),
            mensaje text !! k = Some (JRecord o) -> o !! "contrasena" = None).
  { intros text k o. unfold mensaje. intros H.
    apply lookup_singleton_Some in H as [_ H]. discriminate. }
  unfold login.
  settle ltac:(cbn [json status_json res_json] in *; eauto).
  cbn [json status_json res_json] in *.
  match goal with H : <[ _ := _ ]> _ !! _ = Some _ |- _ =>
    apply lookup_insert_Some in H as [[_ H] | [_ H]] end.
  - injection H as <-. apply lookup_delete_eq.
  - eauto.
Qed.

Section LoginOutcome.

Context {B : Bcrypt}.

(** X4: a login never changes the store, and it answers 200 exactly when
    email and password are present, the lookup by email finds a user, and
    bcrypt verifies the password against the hash of the first row found. *)
Theorem login_succeeds_iff (body : JsObject) (w : World) :
  let correo := prop body "correo" in
  let contrasena := prop body "contrasena" in
  snd (run (login body) w) = w /\
  (status (fst (run (login body) w)) = 200 <->
   truthy correo = true /\ truthy contrasena = true /\
   exists user rest,
     Store.select_usuarios correo w = user :: rest /\
     bcrypt_compare contrasena (prop user "contrasena") = inr true).
Proof.
  intros correo contrasena. unfold login. fold correo contrasena.
  destruct (truthy correo) eqn:Hc; cbn [negb orb].
  2: { cbn [run fst snd status status_json]. split; [reflexivity |].
       split; [discriminate | intros (H & _); discriminate]. }
  destruct (truthy contrasena) eqn:Hp; cbn [negb].
  2: { cbn [run fst snd status status_json]. split; [reflexivity |].
       split; [discriminate | intros (_ & H & _); discriminate]. }
  rewrite run_try_await, (exec_select_usuarios _ _ Hc).
  destruct (Store.select_usuarios correo w) as [| user rest].
  { cbn [run fst snd status status_json]. split; [reflexivity |].
    split; [discriminate | intros (_ & _ & u & r & H & _); discriminate]. }
  rewrite run_try_await. cbn [exec].
  destruct (bcrypt_compare contrasena (prop user "contrasena")) as [e | [|]] eqn:Hv;
    cbn [negb run fst snd status status_json res_json]; (split; [reflexivity |]).
  - split; [discriminate |]. intros (_ & _ & u & r & H & Hu).
    injection H as <- <-. rewrite Hv in Hu. discriminate.
  - split; [| reflexivity]. intros _. repeat split. exists user, rest. split; [reflexivity | exact Hv].
  - split; [discriminate |]. intros (_ & _ & u & r & H & Hu).
    injection H as <- <-. rewrite Hv in Hu. discriminate.
Qed.

(** X5: a registration or a login whose body lacks the email or the password
    (absent, empty, or otherwise falsy) answers 400 before anything is
    awaited: the store is untouched and no hash is computed, also when the
    email is already registered. *)
Theorem missing_credentials_answer_400 (body : JsObject) (w : World) :
  truthy (prop body "correo") = false \/ truthy (prop body "contrasena") = false ->
  run (registro body) w =
    (status_json 400 (mensaje "Correo y contraseña son obligatorios"), w) /\
  run (login body) w =
    (status_json 400 (mensaje "Correo y contraseña son obligatorios"), w).
Proof.
  intros Hmissing.
  assert (Htest : negb (truthy (prop body "correo")) || negb (truthy (prop body "contrasena"))
                  = true).
  { destruct Hmissing as [-> | ->]; [reflexivity | apply orb_true_r]. }
  unfold registro, login. rewrite Htest. split; reflexivity.
Qed.

End LoginOutcome.

Lemma missing_credentials_answer_400_witness :
  run (B := salted_bcrypt) (registro (<[ "contrasena" := JString "" ]> ana)) ana_registered =
    (status_json 400 (mensaje "Correo y contraseña son obligatorios"), ana_registered).
Proof.
  exact (proj1 (missing_credentials_answer_400 (B := salted_bcrypt)
    (<[ "contrasena" := JString "" ]> ana) ana_registered (or_intror eq_refl))).
Defined.

Section BookWrites.

Context {B : Bcrypt}.

(** The guard of an update, on the store. *)
Lemma run_actualizar_guard (id : string) (body : JsObject) (w : World) :
  run (actualizar id body) w =
  if truthy (prop body "usuarioId") then
    match Store.select_usuario_id (JString id) w with
    | [] => (status_json 404 (mensaje "Libro no encontrado"), w)
    | row :: _ =>
        match numbers_differ (prop row "usuario_id") (prop body "usuarioId") with
        | Some true =>
            (status_json 403 (mensaje "No autorizado para actualizar este libro"), w)
        | Some false => run (actualizar_update id body) w
        | None => (status_json 500 (mensaje "Error al actualizar libro"), w)
        end
    end
  else run (actualizar_update id body) w.
Proof.
  unfold actualizar. destruct (truthy (prop body "usuarioId")); [| reflexivity].
  rewrite run_try_await, exec_select_usuario_id.
  destruct (Store.select_usuario_id (JString id) w) as [| row rest]; [reflexivity |].
  destruct (numbers_differ _ _) as [[|] |]; reflexivity.
Qed.

(** A delete, on the store. *)
Lemma run_eliminar_guard (id : string) (body : JsObject) (w : World) :
  run (eliminar id body) w =
  if truthy (prop body "usuarioId") then
    match Store.select_usuario_id (JString id) w with
    | [] => (status_json 404 (mensaje "Libro no encontrado"), w)
    | row :: _ =>
        match numbers_differ (prop row "usuario_id") (prop body "usuarioId") with
        | Some true =>
            (status_json 403 (mensaje "No autorizado para eliminar este libro"), w)
        | Some false =>
            (res_json (mensaje "Libro eliminado"),
             with_libros w
               (List.filter (fun l => negb (Store.int_eq (libro_id l) (JString id)))
                  (libros w)))
        | None => (status_json 500 (mensaje "Error al eliminar libro"), w)
        end
    end
  else (status_json 400 (mensaje "Se requiere usuarioId para eliminar"), w).
Proof.
  destruct (truthy (prop body "usuarioId")) eqn:Htruthy.
  - destruct (Store.select_usuario_id (JString id) w) as [| row rest] eqn:Hfound.
    + apply run_eliminar_not_found; assumption.
    + destruct (numbers_differ _ _) as [[|] |] eqn:Hdiffer.
      * apply (run_eliminar_denied id body w row rest); assumption.
      * apply (run_eliminar_allowed id body w row rest); assumption.
      * apply (run_eliminar_throws id body w row rest); assumption.
  - apply run_eliminar_missing. exact Htruthy.
Qed.


Lemma select_usuario_id_after_update (t a : string) (y : option Z) (id id' : JsValue)
    (w : World) :
  Store.select_usuario_id id (snd (Store.update_libros t a y id' w)) =
  Store.select_usuario_id id w.
Proof.
  unfold Store.select_usuario_id, Store.update_libros. cbn [snd with_libros libros].
  induction (libros w) as [| l ls IH]; [reflexivity |].
  cbn [map List.filter].
  assert (Hid : libro_id (if Store.int_eq (libro_id l) id'
                          then Store.set_libro t a y l else l) = libro_id l).
  { destruct (Store.int_eq (libro_id l) id'); reflexivity. }
  assert (Howner : libro_usuario_id (if Store.int_eq (libro_id l) id'
                                     then Store.set_libro t a y l else l) =
                   libro_usuario_id l).
  { destruct (Store.int_eq (libro_id l) id'); reflexivity. }
  rewrite Hid. destruct (Store.int_eq (libro_id l) id); cbn [map].
  - rewrite Howner, IH. reflexivity.
  - exact IH.
Qed.

Lemma update_libros_twice (t a : string) (y : option Z) (id : JsValue) (w : World) :
  snd (Store.update_libros t a y id (snd (Store.update_libros t a y id w))) =
  snd (Store.update_libros t a y id w).
Proof.
  unfold Store.update_libros. cbn [snd with_libros libros usuarios usuarios_auto_increment entropy].
  unfold with_libros. cbn [libros usuarios usuarios_auto_increment entropy]. f_equal.
  rewrite map_map. apply map_ext. intros l.
  destruct (Store.int_eq (libro_id l) id) eqn:E.
  - cbn [Store.set_libro libro_id]. rewrite E. reflexivity.
  - rewrite E. reflexivity.
Qed.

(** X7: an update is idempotent: repeating the request on the store the
    first run left gives the same response and leaves that store as it is. *)
Theorem update_is_idempotent (id : string) (body : JsObject) (w : World) :
  run (actualizar id body) (snd (run (actualizar id body) w)) = run (actualizar id body) w.
Proof.
  destruct (run_actualizar id body w) as [[Hsame _] | Htail].
  { rewrite Hsame. reflexivity. }
  rewrite Htail.
  destruct (run_actualizar_update id body w) as [Herr | (t & a & y & Ht & Ha & Hy & Hok)].
  { rewrite Herr. cbn [snd]. rewrite <- Herr, <- Htail. reflexivity. }
  rewrite Hok. cbn [snd].
  apply text_value_Some in Ht. apply text_value_Some in Ha.
  assert (Hagain : run (actualizar_update id body)
                     (snd (Store.update_libros t a y (JString id) w)) =
                   (res_json (mensaje "Libro actualizado"),
                    snd (Store.update_libros t a y (JString id) w))).
  { rewrite (run_actualizar_update_typed id body _ t a y Ht Ha Hy), update_libros_twice.
    reflexivity. }
  rewrite run_actualizar_guard, select_usuario_id_after_update.
  rewrite run_actualizar_guard in Htail.
  destruct (truthy (prop body "usuarioId")); [| exact Hagain].
  destruct (Store.select_usuario_id (JString id) w) as [| row rest].
  { rewrite Hok in Htail. discriminate. }
  destruct (numbers_differ _ _) as [[|] |]; [| exact Hagain |];
    rewrite Hok in Htail; discriminate.
Qed.

Lemma filter_filter_negb {T} (P : T -> bool) (l : list T) :
  List.filter P (List.filter (fun x => negb (P x)) l) = [].
Proof.
  induction l as [| x l IH]; [reflexivity |]. cbn [List.filter].
  destruct (P x) eqn:E; cbn [negb List.filter]; [exact IH |]. rewrite E. exact IH.
Qed.

Lemma filter_twice {T} (P : T -> bool) (l : list T) :
  List.filter P (List.filter P l) = List.filter P l.
Proof.
  induction l as [| x l IH]; [reflexivity |]. cbn [List.filter].
  destruct (P x) eqn:E; [| exact IH]. cbn [List.filter]. rewrite E, IH. reflexivity.
Qed.

(** X8: after a delete that answered 200 no book with that id is left, and
    the same request again answers 404 and changes nothing. *)
Theorem delete_then_delete_again (id : string) (body : JsObject) (w : World) :
  status (fst (run (eliminar id body) w)) = 200 ->
  let w' := snd (run (eliminar id body) w) in
  Store.select_usuario_id (JString id) w' = [] /\
  run (eliminar id body) w' = (status_json 404 (mensaje "Libro no encontrado"), w').
Proof.
  intros Hok w'. subst w'. rewrite run_eliminar_guard in *.
  destruct (truthy (prop body "usuarioId")) eqn:Htruthy; [| discriminate].
  destruct (Store.select_usuario_id (JString id) w) as [| row rest]; [discriminate |].
  destruct (numbers_differ _ _) as [[|] |]; try discriminate. cbn [snd].
  assert (Hgone : Store.select_usuario_id (JString id)
                    (with_libros w
                       (List.filter (fun l => negb (Store.int_eq (libro_id l) (JString id)))
                          (libros w))) = []).
  { unfold Store.select_usuario_id. cbn [with_libros libros].
    rewrite (filter_filter_negb (fun l => Store.int_eq (libro_id l) (JString id))).
    reflexivity. }
  split; [exact Hgone |].
  rewrite run_eliminar_guard, Htruthy, Hgone. reflexivity.
Qed.

(** X9: a delete never touches the users, keeps every book with another id,
    in order, adds no book, and changes nothing at all unless it answers
    200. *)
Theorem delete_frame (id : string) (body : JsObject) (w : World) :
  let w' := snd (run (eliminar id body) w) in
  let other := fun l : Libro => negb (Store.int_eq (libro_id l) (JString id)) in
  usuarios w' = usuarios w /\
  usuarios_auto_increment w' = usuarios_auto_increment w /\
  List.filter other (libros w') = List.filter other (libros w) /\
  (forall l : Libro, In l (libros w') -> In l (libros w)) /\
  (status (fst (run (eliminar id body) w)) <> 200 -> w' = w).
Proof.
  intros w' other. subst w'. rewrite run_eliminar_guard.
  destruct (truthy (prop body "usuarioId")); [| repeat split; auto].
  destruct (Store.select_usuario_id (JString id) w) as [| row rest]; [repeat split; auto |].
  destruct (numbers_differ _ _) as [[|] |]; [repeat split; auto | | repeat split; auto].
  cbn [fst snd with_libros libros usuarios usuarios_auto_increment status res_json status_json].
  split; [reflexivity |]. split; [reflexivity |].
  split; [apply filter_twice |].
  split; [| intros H; contradiction H; reflexivity].
  intros l Hl. apply List.filter_In in Hl. tauto.
Qed.

End BookWrites.

Section Registrations.

Context {B : Bcrypt}.

(** X10: a registration never touches the books.  When it answers 200 it
    has appended exactly one user, after the existing ones: its email is the
    body's, its stored password is what bcrypt.hash resolved to, its id is
    the one the response carries, and no user had that email before.  With
    any other status the users are as they were. *)
Theorem registration_adds_at_most_one_user (body : JsObject) (w : World) :
  let r := fst (run (registro body) w) in
  let w' := snd (run (registro body) w) in
  libros w' = libros w /\
  (status r = 200 ->
     exists (c h : string) (n : option string),
       prop body "correo" = JString c /\
       bcrypt_hash (prop body "contrasena") 10 (entropy w) = inr h /\
       Store.select_id (JString c) w = [] /\
       usuarios w' =
         (usuarios w ++
            [ {| usuario_id := usuarios_auto_increment w; usuario_correo := c;
                 usuario_contrasena := h; usuario_nombre := n |} ])%list /\
       json r !! "id" = Some (JValue (JInt (usuarios_auto_increment w)))) /\
  (status r <> 200 -> usuarios w' = usuarios w).
Proof.
  intros r w'. subst r w'.
  destruct (run_registro_cases body w)
    as [(Hstatus & Hlibros & Husuarios & _) | (c & h & n & Hc & _ & Hh & Hn & Hfresh & Hrun)].
  - split; [exact Hlibros |]. split; [intros H; contradiction | intros _; exact Husuarios].
  - rewrite Hrun. cbn [fst snd]. split; [reflexivity |]. split.
    + intros _. exists c, h, n.
      split; [exact Hc |]. split; [exact Hh |]. split; [exact Hfresh |].
      split; [reflexivity |].
      cbn [json res_json status_json]. apply lookup_insert_eq.
    + intros H. contradiction H. reflexivity.
Qed.

Lemma not_registered_not_in (c : string) (w : World) :
  Store.select_id (JString c) w = [] -> c ∉ map usuario_correo (usuarios w).
Proof.
  intros Hfresh. apply select_id_nil in Hfresh. cbn [Store.text_eq] in Hfresh.
  induction (usuarios w) as [| u us IH]; [apply not_elem_of_nil |].
  cbn [List.filter map] in *.
  destruct (String.eqb (usuario_correo u) c) eqn:E; [discriminate |].
  apply String.eqb_neq in E. rewrite not_elem_of_cons. split; [congruence | exact (IH Hfresh)].
Qed.

(** X11: registrations keep the emails of the users pairwise distinct. *)
Theorem registration_keeps_emails_distinct (body : JsObject) (w : World) :
  NoDup (map usuario_correo (usuarios w)) ->
  NoDup (map usuario_correo (usuarios (snd (run (registro body) w)))).
Proof.
  intros Hdistinct.
  destruct (run_registro_cases body w)
    as [(_ & _ & Husuarios & _) | (c & h & n & _ & _ & _ & _ & Hfresh & Hrun)].
  - rewrite Husuarios. exact Hdistinct.
  - rewrite Hrun. cbn [snd registered usuarios]. rewrite map_app. cbn [map usuario_correo].
    apply NoDup_app. split; [exact Hdistinct |]. split.
    + intros x Hx Hin. apply list_elem_of_singleton in Hin. subst x.
      exact (not_registered_not_in c w Hfresh Hx).
    + apply NoDup_singleton.
Qed.

End Registrations.

(** *** Creating and listing *)

Lemma query_write_insert (titulo autor anio usuario : JsValue) (c : Catalog) :
  Libros.query_write
    "INSERT INTO libros (titulo, autor, anio, usuario_id) VALUES (?, ?, ?, ?)"
    [titulo; autor; anio; usuario] c =
  match Store.not_null (Store.text_value titulo), Store.not_null (Store.text_value autor),
        Store.int_value anio, Store.int_value usuario with
  | inr t, inr a, inr y, inr u => (inr (fst (Libros.insert_libro t a y u c)),
                                   snd (Libros.insert_libro t a y u c))
  | inl e, _, _, _ | _, inl e, _, _ | _, _, inl e, _ | _, _, _, inl e => (inl e, c)
  end.
Proof. reflexivity. Qed.

Lemma query_read_all (c : Catalog) :
  Libros.query_read "SELECT * FROM libros" [] c =
  (inr (map Libros.libro_row (libros (store c))), c).
Proof. reflexivity. Qed.

Lemma query_read_by_owner (p : JsValue) (c : Catalog) :
  Libros.query_read ("SELECT * FROM libros" ++ " WHERE usuario_id = ?")%string
    ([] ++ [p])%list c =
  match Store.bound p with
  | inr p => (inr (map Libros.libro_row (List.filter (Libros.owned_by p) (libros (store c)))), c)
  | inl e => (inl e, c)
  end.
Proof. reflexivity. Qed.

(** The two ways a creation ends. *)
Lemma crear_cases (body : JsObject) (c : Catalog) :
  crear body c = (status_json 500 (mensaje "Error al crear libro"), c) \/
  (exists (t a : string) (y u : option Z),
     prop body "titulo" = JString t /\
     prop body "autor" = JString a /\
     Store.int_value (prop body "anio") = inr y /\
     Store.int_value (or_else (prop body "usuarioId") JNull) = inr u /\
     crear body c =
       (res_json
          (<[ "id" := JValue (JInt (libros_auto_increment c)) ]>
          (<[ "titulo" := JValue (prop body "titulo") ]>
          (<[ "autor" := JValue (prop body "autor") ]>
          (<[ "anio" := JValue (prop body "anio") ]>
          {[ "usuarioId" := JValue (or_else (prop body "usuarioId") JNull) ]})))),
        snd (Libros.insert_libro t a y u c))).
Proof.
  unfold crear. rewrite query_write_insert.
  destruct (Store.text_value (prop body "titulo")) as [e | [t |]] eqn:Ht;
    cbn [Store.not_null]; try (left; reflexivity).
  destruct (Store.text_value (prop body "autor")) as [e | [a |]] eqn:Ha;
    cbn [Store.not_null]; try (left; reflexivity).
  destruct (Store.int_value (prop body "anio")) as [e | y] eqn:Hy; try (left; reflexivity).
  destruct (Store.int_value (or_else (prop body "usuarioId") JNull)) as [e | u] eqn:Hu;
    try (left; reflexivity).
  right. exists t, a, y, u.
  apply text_value_Some in Ht. apply text_value_Some in Ha.
  repeat (split; [first [assumption | reflexivity] |]). reflexivity.
Qed.

Lemma int_value_falsy (v : JsValue) (u : option Z) :
  truthy v = false -> Store.int_value (or_else v JNull) = inr u -> u = None.
Proof.
  intros Hfalsy. unfold or_else. rewrite Hfalsy. cbn. intros H. injection H as <-. reflexivity.
Qed.

(** X12: a creation either answers 500 and leaves everything as it was, or
    answers 200 and has appended exactly one book after the existing ones:
    its id is the generated one, which the response carries, its title and
    author are the body's, and its owner is null when the body's usuarioId is
    absent, 0, empty or otherwise falsy.  The users are never touched. *)
Theorem create_outcomes (body : JsObject) (c : Catalog) :
  let r := fst (crear body c) in
  let c' := snd (crear body c) in
  usuarios (store c') = usuarios (store c) /\
  ((status r = 500 /\ c' = c) \/
   (status r = 200 /\
    json r !! "id" = Some (JValue (JInt (libros_auto_increment c))) /\
    libros_auto_increment c' = libros_auto_increment c + 1 /\
    exists l : Libro,
      libros (store c') = (libros (store c) ++ [l])%list /\
      libro_id l = libros_auto_increment c /\
      prop body "titulo" = JString (libro_titulo l) /\
      prop body "autor" = JString (libro_autor l) /\
      Store.int_value (prop body "anio") = inr (libro_anio l) /\
      Store.int_value (or_else (prop body "usuarioId") JNull) = inr (libro_usuario_id l) /\
      (truthy (prop body "usuarioId") = false -> libro_usuario_id l = None))).
Proof.
  intros r c'. subst r c'.
  destruct (crear_cases body c) as [-> | (t & a & y & u & Ht & Ha & Hy & Hu & ->)].
  - split; [reflexivity |]. left. split; reflexivity.
  - cbn [fst snd Libros.insert_libro store with_libros usuarios libros libros_auto_increment].
    split; [reflexivity |]. right.
    split; [reflexivity |].
    split; [cbn [json res_json status_json]; apply lookup_insert_eq |].
    split; [reflexivity |].
    eexists. split; [reflexivity |]. cbn [libro_id libro_titulo libro_autor libro_anio libro_usuario_id].
    repeat (split; [assumption || reflexivity |]).
    intros Hfalsy. exact (int_value_falsy _ _ Hfalsy Hu).
Qed.

Lemma owned_by_iff (p : JsValue) (l : Libro) :
  Libros.owned_by p l = true <->
  exists u : Z, libro_usuario_id l = Some u /\ numbers_differ (JInt u) p = Some false.
Proof.
  unfold Libros.owned_by. split.
  - destruct (libro_usuario_id l) as [u |]; [| discriminate].
    destruct (numbers_differ (JInt u) p) as [[|] |] eqn:E; try discriminate. eauto.
  - intros (u & -> & ->). reflexivity.
Qed.

(** X13: on this store a listing always resolves, and it never changes
    anything.  Without a usuarioId in the query string, or with an empty
    one, it returns one row per book, in table order; with one, it returns
    the rows of exactly the books whose stored owner and the parameter coerce
    to equal numbers, so never a book without owner: "5.0" lists the books of
    owner 5. *)
Theorem list_outcomes (query_string : JsObject) (c : Catalog) :
  let usuarioId := prop query_string "usuarioId" in
  listar query_string c =
    (Listed (map Libros.libro_row
               (if truthy usuarioId
                then List.filter (Libros.owned_by usuarioId) (libros (store c))
                else libros (store c))), c) /\
  (forall l : Libro,
     Libros.owned_by usuarioId l = true <->
     exists u : Z, libro_usuario_id l = Some u /\
                   numbers_differ (JInt u) usuarioId = Some false) /\
  numbers_differ (JInt 5) (JString "5.0") = Some false /\
  truthy (JString "") = false.
Proof.
  intros usuarioId. split; [| split; [| split; reflexivity]].
  - unfold listar. fold usuarioId. destruct (truthy usuarioId) eqn:Htruthy.
    + rewrite query_read_by_owner, (bound_truthy _ Htruthy). reflexivity.
    + rewrite query_read_all. reflexivity.
  - intros l. apply owned_by_iff.
Qed.

Lemma int_value_owned (v : JsValue) (u : option Z) :
  truthy v = true -> Store.int_value v = inr u ->
  exists z, u = Some z /\ numbers_differ (JInt z) v = Some false.
Proof.
  intros Htruthy Hvalue.
  assert (Hint : exists z, u = Some z /\ Store.int_of v = Some z).
  { destruct v; cbn [truthy] in Htruthy; try discriminate; cbn [Store.int_value] in Hvalue;
      destruct (Store.int_of _) as [z |]; try discriminate;
      injection Hvalue as <-; exists z; split; reflexivity. }
  destruct Hint as (z & -> & Hint). exists z. split; [reflexivity |].
  exact (int_of_numbers_agree _ _ Hint).
Qed.

Lemma libro_row_id (l : Libro) : prop (Libros.libro_row l) "id" = JInt (libro_id l).
Proof. unfold prop, Libros.libro_row. rewrite lookup_insert_eq. reflexivity. Qed.

(** X14: after a creation that answered 200, the listing of all books is the
    former listing followed by the row of the new book, whose id is the one
    the creation returned; and when the body named an owner, the listing
    filtered by that same value is the former filtered listing followed by
    that row. *)
Theorem created_book_is_listed (body : JsObject) (c : Catalog) :
  status (fst (crear body c)) = 200 ->
  let c' := snd (crear body c) in
  let usuarioId := prop body "usuarioId" in
  exists row : JsObject,
    json (fst (crear body c)) !! "id" = Some (JValue (prop row "id")) /\
    listar ∅ c' =
      (Listed (map Libros.libro_row (libros (store c)) ++ [row]), c') /\
    (truthy usuarioId = true ->
       listar {[ "usuarioId" := usuarioId ]} c' =
         (Listed (map Libros.libro_row
                    (List.filter (Libros.owned_by usuarioId) (libros (store c))) ++ [row]),
          c')).
Proof.
  intros Hok c' usuarioId. subst c'.
  destruct (crear_cases body c) as [Herr | (t & a & y & u & _ & _ & _ & Hu & Hrun)].
  { rewrite Herr in Hok. discriminate. }
  rewrite Hrun. cbn [fst snd].
  exists (Libros.libro_row
            {| libro_id := libros_auto_increment c; libro_titulo := t; libro_autor := a;
               libro_anio := y; libro_usuario_id := u |}).
  split; [| split].
  - rewrite libro_row_id. cbn [json res_json status_json libro_id]. apply lookup_insert_eq.
  - unfold listar. change (truthy (prop ∅ "usuarioId")) with false. cbn iota.
    rewrite query_read_all.
    cbn [Libros.insert_libro snd store with_libros libros]. rewrite map_app. reflexivity.
  - intros Htruthy. unfold listar.
    replace (prop {[ "usuarioId" := usuarioId ]} "usuarioId") with usuarioId
      by (unfold prop; rewrite lookup_singleton_eq; reflexivity).
    rewrite Htruthy. cbn iota.
    rewrite query_read_by_owner, (bound_truthy _ Htruthy).
    cbn [Libros.insert_libro snd store with_libros libros].
    rewrite List.filter_app, map_app. cbn [List.filter].
    fold usuarioId in Hu. unfold or_else in Hu. rewrite Htruthy in Hu.
    destruct (int_value_owned _ _ Htruthy Hu) as (z & -> & Hz).
    unfold Libros.owned_by at 2. cbn [libro_usuario_id]. rewrite Hz. reflexivity.
Qed.

Lemma created_book_is_listed_witness :
  exists row : JsObject,
    json (fst (crear novela shelf)) !! "id" = Some (JValue (prop row "id")) /\
    listar {[ "usuarioId" := JString "5" ]} (snd (crear novela shelf)) =
      (Listed [Libros.libro_row quijote; row], snd (crear novela shelf)).
Proof.
  destruct (created_book_is_listed novela shelf eq_refl) as (row & Hid & _ & Hlisted).
  exists row. split; [exact Hid | exact (Hlisted eq_refl)].
Defined.

Lemma with_libros_twice (w : World) (l1 l2 : list Libro) :
  with_libros (with_libros w l1) l2 = with_libros w l2.
Proof. reflexivity. Qed.

Lemma filter_none {T} (P : T -> bool) (l : list T) :
  (forall x, In x l -> P x = false) -> List.filter P l = [].
Proof.
  induction l as [| x l IH]; [reflexivity |]. intros H. cbn [List.filter].
  rewrite (H x (or_introl eq_refl)). apply IH. intros y Hy. apply H. right. exact Hy.
Qed.

Lemma filter_all {T} (P : T -> bool) (l : list T) :
  (forall x, In x l -> P x = true) -> List.filter P l = l.
Proof.
  induction l as [| x l IH]; [reflexivity |]. intros H. cbn [List.filter].
  rewrite (H x (or_introl eq_refl)). f_equal. apply IH. intros y Hy. apply H. right. exact Hy.
Qed.

Section CreateThenDelete.

Context {B : Bcrypt}.

(** X15: a book created with an owner, under an id no existing book has, is
    guarded by that owner: a delete of the new id that claims a value equal
    as a number to the stored owner answers 200 and brings the books back to
    what they were before the creation; a delete that claims a different
    number answers 403 and leaves the new book in place. *)
Theorem created_book_is_guarded_by_its_owner (body claim : JsObject) (c : Catalog)
    (id : string) (owner : Z) :
  status (fst (crear body c)) = 200 ->
  Store.int_value (or_else (prop body "usuarioId") JNull) = inr (Some owner) ->
  (forall l, In l (libros (store c)) -> libro_id l <> libros_auto_increment c) ->
  Store.int_of (JString id) = Some (libros_auto_increment c) ->
  truthy (prop claim "usuarioId") = true ->
  let c' := snd (crear body c) in
  (numbers_differ (JInt owner) (prop claim "usuarioId") = Some false ->
     serve (eliminar id claim) c' =
       (res_json (mensaje "Libro eliminado"),
        {| store := store c; libros_auto_increment := libros_auto_increment c + 1 |})) /\
  (numbers_differ (JInt owner) (prop claim "usuarioId") = Some true ->
     serve (eliminar id claim) c' =
       (status_json 403 (mensaje "No autorizado para eliminar este libro"), c')).
Proof.
  intros Hok Howner Hfresh Hid Hclaim c'. subst c'.
  destruct (crear_cases body c) as [Herr | (t & a & y & u & _ & _ & _ & Hu & Hrun)].
  { rewrite Herr in Hok. discriminate. }
  rewrite Howner in Hu. injection Hu as <-. rewrite Hrun. cbn [snd Libros.insert_libro].
  set (new := {| libro_id := libros_auto_increment c; libro_titulo := t; libro_autor := a;
                 libro_anio := y; libro_usuario_id := Some owner |}).
  assert (Hold : forall l, In l (libros (store c)) ->
                   Store.int_eq (libro_id l) (JString id) = false).
  { intros l Hl. unfold Store.int_eq. rewrite Hid. apply Z.eqb_neq, Hfresh, Hl. }
  assert (Hnew : Store.int_eq (libro_id new) (JString id) = true).
  { unfold Store.int_eq. rewrite Hid. apply Z.eqb_refl. }
  assert (Hfound : Store.select_usuario_id (JString id)
                     (with_libros (store c) (libros (store c) ++ [new])) =
                   [ {[ "usuario_id" := JInt owner ]} ]).
  { unfold Store.select_usuario_id. cbn [with_libros libros].
    rewrite List.filter_app, (filter_none _ _ Hold). cbn [List.filter app].
    rewrite Hnew. reflexivity. }
  assert (Hstored : prop ({[ "usuario_id" := JInt owner ]} : JsObject) "usuario_id" = JInt owner).
  { unfold prop. rewrite lookup_singleton_eq. reflexivity. }
  split; intros Heq; unfold serve; cbn [store];
    rewrite run_eliminar_guard, Hclaim, Hfound, Hstored, Heq.
  - unfold with_store. cbn [libros_auto_increment with_libros libros]. f_equal. f_equal.
    rewrite with_libros_twice, List.filter_app.
    rewrite (filter_all (fun l => negb (Store.int_eq (libro_id l) (JString id))) (libros (store c)))
      by (intros l Hl; rewrite (Hold l Hl); reflexivity).
    cbn [List.filter]. rewrite Hnew. cbn [negb]. rewrite app_nil_r. apply with_libros_same.
  - reflexivity.
Qed.

End CreateThenDelete.

Lemma created_book_is_guarded_by_its_owner_witness :
  serve (B := salted_bcrypt) (eliminar "4" {[ "usuarioId" := JInt 5 ]}) (snd (crear novela shelf)) =
    (res_json (mensaje "Libro eliminado"), {| store := library; libros_auto_increment := 5 |}) /\
  serve (B := salted_bcrypt) (eliminar "4" {[ "usuarioId" := JString "6" ]})
    (snd (crear novela shelf)) =
    (status_json 403 (mensaje "No autorizado para eliminar este libro"), snd (crear novela shelf)).
Proof.
  assert (Hfresh : forall l, In l (libros (store shelf)) -> libro_id l <> libros_auto_increment shelf).
  { intros l [<- | [<- | [<- | []]]]; discriminate. }
  split.
  - exact (proj1 (created_book_is_guarded_by_its_owner (B := salted_bcrypt) novela
      {[ "usuarioId" := JInt 5 ]} shelf "4" 5 eq_refl eq_refl Hfresh eq_refl eq_refl) eq_refl).
  - exact (proj2 (created_book_is_guarded_by_its_owner (B := salted_bcrypt) novela
      {[ "usuarioId" := JString "6" ]} shelf "4" 5 eq_refl eq_refl Hfresh eq_refl eq_refl) eq_refl).
Defined.

Lemma elem_of_map_filter {T U} (f : T -> U) (P : T -> bool) (l : list T) (z : U) :
  z ∈ map f (List.filter P l) -> z ∈ map f l.
Proof.
  induction l as [| x l IH]; [intros H; exact H |]. cbn [List.filter map].
  destruct (P x); cbn [map]; rewrite ?elem_of_cons; intuition.
Qed.

Lemma keys_after_filter (P : Libro -> bool) (n : Z) (l : list Libro) :
  NoDup (map libro_id l) /\ Forall (fun z => z < n) (map libro_id l) ->
  NoDup (map libro_id (List.filter P l)) /\
  Forall (fun z => z < n) (map libro_id (List.filter P l)).
Proof.
  induction l as [| x l IH]; [intros H; exact H |]. cbn [List.filter map].
  intros [Hdistinct Hbelow].
  apply NoDup_cons in Hdistinct as [Hx Hdistinct]. apply Forall_cons in Hbelow as [Hxn Hbelow].
  destruct (IH (conj Hdistinct Hbelow)) as [IHd IHb].
  destruct (P x); [| split; assumption]. cbn [map]. split.
  - apply NoDup_cons. split; [| exact IHd]. intros Hin. apply Hx.
    exact (elem_of_map_filter _ _ _ _ Hin).
  - apply Forall_cons. split; assumption.
Qed.

Section Keys.

Context {B : Bcrypt}.

(** X16: creations, updates and deletes keep the ids of the books pairwise
    distinct and below the counter that generates the next id. *)
Theorem book_ids_stay_distinct (id : string) (body : JsObject) (c : Catalog) :
  well_keyed c ->
  well_keyed (snd (crear body c)) /\
  well_keyed (snd (serve (actualizar id body) c)) /\
  well_keyed (snd (serve (eliminar id body) c)).
Proof.
  unfold well_keyed. cbn zeta. intros [Hdistinct Hbelow]. split; [| split].
  - destruct (crear_cases body c) as [-> | (t & a & y & u & _ & _ & _ & _ & ->)];
      [split; assumption |].
    cbn [snd Libros.insert_libro store with_libros libros libros_auto_increment].
    rewrite map_app. cbn [map libro_id]. split.
    + apply NoDup_app. split; [exact Hdistinct |]. split; [| apply NoDup_singleton].
      intros z Hz Hin. apply list_elem_of_singleton in Hin. subst z.
      rewrite Forall_forall in Hbelow. specialize (Hbelow _ Hz). lia.
    + apply Forall_app. split.
      * eapply Forall_impl; [exact Hbelow |]. cbn beta. intros z Hz. lia.
      * apply Forall_cons. split; [lia | apply Forall_nil_2].
  - unfold serve.
    destruct (run (actualizar id body) (store c)) as [r w'] eqn:Hrun.
    cbn [snd with_store store libros_auto_increment].
    assert (Hids : map libro_id (libros w') = map libro_id (libros (store c))).
    { destruct (run_actualizar id body (store c)) as [[Hsame _] | Htail].
      - rewrite Hrun in Hsame. cbn [snd] in Hsame. rewrite Hsame. reflexivity.
      - rewrite Hrun in Htail.
        destruct (run_actualizar_update id body (store c))
          as [Herr | (t & a & y & _ & _ & _ & Hok)].
        + rewrite Herr in Htail. injection Htail as _ ->. reflexivity.
        + rewrite Hok in Htail. injection Htail as _ ->.
          cbn [snd Store.update_libros with_libros libros]. apply update_libros_ids. }
    rewrite Hids. split; assumption.
  - unfold serve. rewrite run_eliminar_guard.
    destruct (truthy (prop body "usuarioId")); [| split; assumption].
    destruct (Store.select_usuario_id (JString id) (store c)) as [| row rest];
      [split; assumption |].
    destruct (numbers_differ _ _) as [[|] |]; [split; assumption | | split; assumption].
    cbn [snd with_store store libros_auto_increment with_libros libros].
    apply keys_after_filter. split; assumption.
Qed.

End Keys.

Lemma shelf_well_keyed : well_keyed shelf.
Proof.
  split.
  - cbn. repeat (apply NoDup_cons; split; [rewrite ?elem_of_cons, elem_of_nil; intuition discriminate |]).
    apply NoDup_nil_2.
  - cbn. repeat (apply Forall_cons; split; [lia |]). apply Forall_nil_2.
Defined.

Lemma book_ids_stay_distinct_witness :
  well_keyed (snd (crear novela shelf)) /\
  well_keyed (snd (serve (B := salted_bcrypt) (eliminar "1" {[ "usuarioId" := JInt 5 ]}) shelf)).
Proof.
  pose proof (book_ids_stay_distinct (B := salted_bcrypt) "1" {[ "usuarioId" := JInt 5 ]}
                shelf shelf_well_keyed) as (_ & _ & Hdelete).
  pose proof (book_ids_stay_distinct (B := salted_bcrypt) "1" novela shelf shelf_well_keyed)
    as (Hcreate & _).
  split; [exact Hcreate | exact Hdelete].
Defined.


Lemma delete_then_delete_again_witness :
  run (B := salted_bcrypt) (eliminar "1" {[ "usuarioId" := JInt 5 ]})
    (with_libros library [lazarillo; celestina]) =
  (status_json 404 (mensaje "Libro no encontrado"), with_libros library [lazarillo; celestina]).
Proof.
  exact (proj2 (delete_then_delete_again (B := salted_bcrypt) "1"
    {[ "usuarioId" := JInt 5 ]} library eq_refl)).
Defined.

Lemma delete_frame_witness :
  snd (run (B := salted_bcrypt) (eliminar "1" {[ "usuarioId" := JInt 6 ]}) library) = library.
Proof.
  apply (delete_frame (B := salted_bcrypt) "1" {[ "usuarioId" := JInt 6 ]} library).
  discriminate.
Defined.

Lemma registration_adds_at_most_one_user_witness :
  usuarios (snd (run (B := salted_bcrypt) (registro ana_otra_vez) ana_registered)) =
  usuarios ana_registered.
Proof.
  apply (registration_adds_at_most_one_user (B := salted_bcrypt) ana_otra_vez ana_registered).
  discriminate.
Defined.

Lemma registration_keeps_emails_distinct_witness :
  NoDup (map usuario_correo (usuarios (snd (run (B := salted_bcrypt) (registro ana) empty_world)))).
Proof.
  exact (registration_keeps_emails_distinct (B := salted_bcrypt) ana empty_world (NoDup_nil_2)).
Defined.

Lemma create_outcomes_witness :
  usuarios (store (snd (crear (<[ "usuarioId" := JInt 0 ]> novela) shelf))) = [] /\
  (status (fst (crear ∅ shelf)) = 500 /\ snd (crear ∅ shelf) = shelf \/
   status (fst (crear ∅ shelf)) = 200 /\
   json (fst (crear ∅ shelf)) !! "id" = Some (JValue (JInt 4)) /\
   libros_auto_increment (snd (crear ∅ shelf)) = 5 /\
   exists l : Libro,
     libros (store (snd (crear ∅ shelf))) = (libros library ++ [l])%list /\
     libro_id l = 4 /\
     prop ∅ "titulo" = JString (libro_titulo l) /\
     prop ∅ "autor" = JString (libro_autor l) /\
     Store.int_value (prop ∅ "anio") = inr (libro_anio l) /\
     Store.int_value (or_else (prop ∅ "usuarioId") JNull) = inr (libro_usuario_id l) /\
     (truthy (prop ∅ "usuarioId") = false -> libro_usuario_id l = None)).
Proof.
  split.
  - exact (proj1 (create_outcomes (<[ "usuarioId" := JInt 0 ]> novela) shelf)).
  - exact (proj2 (create_outcomes ∅ shelf)).
Defined.

Lemma list_outcomes_witness :
  listar {[ "usuarioId" := JString "5.0" ]} shelf = (Listed [Libros.libro_row quijote], shelf) /\
  listar {[ "usuarioId" := JString "" ]} shelf =
    (Listed (map Libros.libro_row [quijote; lazarillo; celestina]), shelf).
Proof.
  split.
  - exact (proj1 (list_outcomes {[ "usuarioId" := JString "5.0" ]} shelf)).
  - exact (proj1 (list_outcomes {[ "usuarioId" := JString "" ]} shelf)).
Defined.

Section AfterWrites.

Context {B : Bcrypt}.

Lemma select_usuario_id_after_actualizar (id id' : string) (body : JsObject) (w : World) :
  Store.select_usuario_id (JString id') (snd (run (actualizar id body) w)) =
  Store.select_usuario_id (JString id') w.
Proof.
  destruct (run_actualizar id body w) as [[Hsame _] | Htail]; [rewrite Hsame; reflexivity |].
  rewrite Htail.
  destruct (run_actualizar_update id body w) as [-> | (t & a & y & _ & _ & _ & ->)];
    [reflexivity |].
  cbn [snd]. apply select_usuario_id_after_update.
Qed.

Lemma fst_run_actualizar_update (id : string) (body : JsObject) (w0 w1 : World) :
  fst (run (actualizar_update id body) w0) = fst (run (actualizar_update id body) w1).
Proof.
  destruct (run_actualizar_update id body w0) as [H0 | (t & a & y & Ht & Ha & Hy & H0)];
    destruct (run_actualizar_update id body w1) as [H1 | (t' & a' & y' & Ht' & Ha' & Hy' & H1)];
    rewrite ?H0, ?H1; try reflexivity.
  - apply text_value_Some in Ht'. apply text_value_Some in Ha'.
    rewrite (run_actualizar_update_typed id body w0 t' a' y' Ht' Ha' Hy') in H0. discriminate.
  - apply text_value_Some in Ht. apply text_value_Some in Ha.
    rewrite (run_actualizar_update_typed id body w1 t a y Ht Ha Hy) in H1. discriminate.
Qed.

(** X17: an update, whatever it writes and whoever sends it, changes nothing
    about who may delete or update which book: any later delete or update,
    of any id and by any claimant, gets the response it would have got
    before. *)
Theorem update_keeps_the_guard (id id' : string) (body claim : JsObject) (w : World) :
  let w' := snd (run (actualizar id body) w) in
  fst (run (eliminar id' claim) w') = fst (run (eliminar id' claim) w) /\
  fst (run (actualizar id' claim) w') = fst (run (actualizar id' claim) w).
Proof.
  intros w'. subst w'. split.
  - rewrite !run_eliminar_guard, select_usuario_id_after_actualizar.
    destruct (truthy (prop claim "usuarioId")); [| reflexivity].
    destruct (Store.select_usuario_id (JString id') w) as [| row rest]; [reflexivity |].
    destruct (numbers_differ _ _) as [[|] |]; reflexivity.
  - rewrite (run_actualizar_guard id' claim (snd (run (actualizar id body) w))),
      (run_actualizar_guard id' claim w), select_usuario_id_after_actualizar.
    destruct (truthy (prop claim "usuarioId")); [| apply fst_run_actualizar_update].
    destruct (Store.select_usuario_id (JString id') w) as [| row rest]; [reflexivity |].
    destruct (numbers_differ _ _) as [[|] |];
      [reflexivity | apply fst_run_actualizar_update | reflexivity].
Qed.

(** X18: after a delete that answered 200 the listing of all books is the
    former listing without the rows of the books that had the deleted id;
    after any other delete it is the former listing. *)
Theorem deleted_book_is_not_listed (id : string) (body : JsObject) (c : Catalog) :
  let r := fst (serve (eliminar id body) c) in
  let c' := snd (serve (eliminar id body) c) in
  fst (listar ∅ c') =
    Listed (map Libros.libro_row
              (if status r =? 200
               then List.filter (fun l => negb (Store.int_eq (libro_id l) (JString id)))
                      (libros (store c))
               else libros (store c))).
Proof.
  intros r c'. subst r c'.
  assert (Hlist : forall c0, fst (listar ∅ c0) = Listed (map Libros.libro_row (libros (store c0)))).
  { intros c0. unfold listar. change (truthy (prop ∅ "usuarioId")) with false. cbn iota.
    rewrite query_read_all. reflexivity. }
  rewrite Hlist. unfold serve. rewrite run_eliminar_guard.
  destruct (truthy (prop body "usuarioId")); [| reflexivity].
  destruct (Store.select_usuario_id (JString id) (store c)) as [| row rest]; [reflexivity |].
  destruct (numbers_differ _ _) as [[|] |]; reflexivity.
Qed.

End AfterWrites.
